(** * KlippLink (klipplink.py): clipboard URL watcher

    A shallow embedding of the logic of [klipplink.py]: the retry decorator,
    the clipboard polling loop, URL validation, URL rewriting and the
    configuration file handling, followed by the properties of these
    functions.

    Conventions.
    - A Python [str] is a [string]; comparisons are character by character,
      so every test below is case-sensitive, as in Python.
    - A Python exception is a value of [Py.exn]; a function that may raise
      returns [Py.result A].
    - A free name of a function body is looked up in the module namespace
      ([namespace], [load_global]); a name that is bound nowhere raises
      [NameError].
    - The configuration is the JSON object of [config.json]: every key may be
      absent ([None]), a key that is present carries a value of the type the
      program itself writes there. *)

From Stdlib Require Import ZArith QArith Qminmax Lqa Ascii String.
From stdpp Require Import base option list gmap strings.

(* ================================================================== *)
(** * Python values, exceptions and string methods *)
(* ================================================================== *)

Module Py.

(** The exception classes that occur in the program. All of them derive
    from [Exception], so [except Exception] catches each of them. *)
Inductive exn : Type :=
| NameError (name : string)
| AttributeError (attr : string)
| KeyError (key : string)
| ValueError (msg : string)
| OSError (msg : string)
| PyperclipException (msg : string)
| Exception (msg : string).

(** [str(e)] *)
Definition str (e : exn) : string :=
  match e with
  | NameError name => "name '" +:+ name +:+ "' is not defined"
  | AttributeError attr => "object has no attribute '" +:+ attr +:+ "'"
  | KeyError key => "'" +:+ key +:+ "'"
  | ValueError msg | OSError msg | PyperclipException msg | Exception msg => msg
  end.

(** A computation that returns an [A] or raises. *)
Definition result (A : Type) : Type := (exn + A)%type.

Definition ret {A} (a : A) : result A := inr a.
Definition raise {A} (e : exn) : result A := inl e.
Definition bind {A B} (m : result A) (k : A -> result B) : result B :=
  match m with
  | inl e => inl e
  | inr a => k a
  end.

(** Truth value of a [str]: the empty string is false. *)
Definition truthy (s : string) : bool :=
  match s with
  | EmptyString => false
  | String _ _ => true
  end.

(** [s.startswith(p)] *)
Definition startswith (s p : string) : bool := String.prefix p s.

(** [s.endswith(x)]: [x] is one of the tails of [s]. *)
Fixpoint endswith (s x : string) : bool :=
  if String.eqb s x then true
  else match s with
       | EmptyString => false
       | String _ s' => endswith s' x
       end.

(** [sub in s]: [sub] is a prefix of one of the tails of [s]. *)
Fixpoint contains (sub s : string) : bool :=
  if String.prefix sub s then true
  else match s with
       | EmptyString => false
       | String _ s' => contains sub s'
       end.

(** [s.replace("", new)]: [new] before every character and at the end. *)
Fixpoint interleave (new s : string) : string :=
  match s with
  | EmptyString => new
  | String c s' => new +:+ String c (interleave new s')
  end.

(** [s.replace(old, new)] for a non-empty [old]: scan from the left; at an
    occurrence of [old] emit [new] and skip the occurrence ([skip] counts
    the characters of the occurrence still to pass), elsewhere copy one
    character. *)
Fixpoint replace_scan (old new : string) (skip : nat) (s : string) : string :=
  match s with
  | EmptyString => EmptyString
  | String c s' =>
      match skip with
      | S k => replace_scan old new k s'
      | O =>
          if String.prefix old s
          then new +:+ replace_scan old new (String.length old - 1) s'
          else String c (replace_scan old new 0 s')
      end
  end.

(** [s.replace(old, new)] *)
Definition replace (s old new : string) : string :=
  match old with
  | EmptyString => interleave new s
  | String _ _ => replace_scan old new 0 s
  end.

(** [x in l] for a list of strings *)
Definition in_list (x : string) (l : list string) : bool :=
  existsb (String.eqb x) l.

End Py.

Notation "'let*' x := m 'in' k" := (Py.bind m (fun x => k))
  (at level 10, x name, m at level 100, k at level 200).

(* ================================================================== *)
(** * The module namespace *)
(* ================================================================== *)

(** The result of [urllib.parse.urlparse], with the two attributes the
    program reads; [rest] is what follows the network location. *)
Record ParseResult : Type := mkParseResult {
  scheme : string;
  netloc : string;
  rest : string
}.

(** The objects a global name can be bound to: the kinds that the module
    level of [klipplink.py] binds, and a parse result. *)
Inductive pyobj : Type :=
| PyModule (name : string)
| PyClass
| PyFunction
| PyInstance
| PyStr
| PyParseResult (r : ParseResult).

Abbreviation namespace := (gmap string pyobj).

(** The names bound at module level by the imports, assignments, [def]s and
    [class]es of [klipplink.py], in source order. Neither [result] nor
    [random] is a Python builtin, so the module namespace is the only place
    where a function body can find them. *)
Definition module_bindings : list (string * pyobj) :=
  [ ("sys", PyModule "sys"); ("json", PyModule "json"); ("os", PyModule "os");
    ("time", PyModule "time"); ("tldextract", PyModule "tldextract");
    ("urllib", PyModule "urllib"); ("pyperclip", PyModule "pyperclip");
    ("keyboard", PyModule "keyboard"); ("logging", PyModule "logging");
    ("RotatingFileHandler", PyClass);
    ("QApplication", PyClass); ("QMainWindow", PyClass);
    ("QSystemTrayIcon", PyClass); ("QMenu", PyClass); ("QAction", PyClass);
    ("QMessageBox", PyClass); ("QLabel", PyClass); ("QVBoxLayout", PyClass);
    ("QWidget", PyClass); ("QPushButton", PyClass); ("QLineEdit", PyClass);
    ("QComboBox", PyClass); ("QSlider", PyClass); ("QInputDialog", PyClass);
    ("QDesktopWidget", PyClass);
    ("QIcon", PyClass);
    ("QThread", PyClass); ("pyqtSignal", PyFunction); ("Qt", PyClass);
    ("QObject", PyClass); ("QTimer", PyClass);
    ("wraps", PyFunction);
    ("asyncio", PyModule "asyncio");
    ("requirements", PyStr);
    ("logger", PyInstance); ("handler", PyInstance);
    ("retry_with_backoff", PyFunction);
    ("ClipboardMonitor", PyClass); ("URLThread", PyClass);
    ("MainWindow", PyClass); ("SettingsWindow", PyClass);
    ("app", PyInstance); ("main_window", PyInstance) ].

Definition module_globals : namespace := list_to_map module_bindings.

(** Evaluation of a free name. *)
Definition load_global (g : namespace) (name : string) : Py.result pyobj :=
  match g !! name with
  | Some o => Py.ret o
  | None => Py.raise (Py.NameError name)
  end.

(** [random.uniform(0, 1)]: the name [random] is looked up, then its
    attribute [uniform], which only the module [random] has; [sample] is the
    number the call draws. *)
Definition random_uniform (g : namespace) (sample : Q) : Py.result Q :=
  let* o := load_global g "random" in
  match o with
  | PyModule "random" => Py.ret sample
  | _ => Py.raise (Py.AttributeError "uniform")
  end.

(** [o.scheme] *)
Definition getattr_scheme (o : pyobj) : Py.result string :=
  match o with
  | PyParseResult r => Py.ret (scheme r)
  | _ => Py.raise (Py.AttributeError "scheme")
  end.

(* ================================================================== *)
(** * Library functions *)
(* ================================================================== *)

(** The three library functions that URL validation calls. They belong to
    the Python standard library and to [tldextract], not to the program, so
    validation is stated over any implementation of this interface. *)
Class UrlLib : Type := {
  (** [urllib.parse.unquote] *)
  unquote : string -> string;
  (** [urllib.parse.urlparse]; raises [ValueError] on some inputs *)
  urlparse : string -> Py.result ParseResult;
  (** [tldextract.extract(netloc).domain] *)
  extract_domain : string -> string
}.

Module Lib.

Definition hex_digit (c : ascii) : option N :=
  let n := N_of_ascii c in
  if ((48 <=? n) && (n <=? 57))%N then Some (n - 48)%N
  else if ((65 <=? n) && (n <=? 70))%N then Some (n - 55)%N
  else if ((97 <=? n) && (n <=? 102))%N then Some (n - 87)%N
  else None.

(** Modelled from the spec: [urllib.parse.unquote] is a function of the
    Python standard library and is absent from the sources of the program.
    The decoding step, "Percent-decode raw": a ['%'] followed by two
    hexadecimal digits is replaced by the character with that code, every
    other character is kept. (A decoded sequence that is not valid UTF-8
    is kept as it is here.) *)
Fixpoint unquote (s : string) : string :=
  match s with
  | EmptyString => EmptyString
  | String c s' =>
      if Ascii.eqb c "%" then
        match s' with
        | String h (String l s'') =>
            match hex_digit h, hex_digit l with
            | Some a, Some b => String (ascii_of_N (16 * a + b)) (unquote s'')
            | _, _ => String c (unquote s')
            end
        | _ => String c (unquote s')
        end
      else String c (unquote s')
  end.

Definition is_alpha (c : ascii) : bool :=
  let n := N_of_ascii c in
  (((65 <=? n) && (n <=? 90)) || ((97 <=? n) && (n <=? 122)))%N.

Definition is_digit (c : ascii) : bool :=
  let n := N_of_ascii c in ((48 <=? n) && (n <=? 57))%N.

(** [scheme_chars]: letters, digits and ["+-."] *)
Definition scheme_char (c : ascii) : bool :=
  is_alpha c || is_digit c || Ascii.eqb c "+" || Ascii.eqb c "-" || Ascii.eqb c ".".

Definition lower_char (c : ascii) : ascii :=
  let n := N_of_ascii c in
  if ((65 <=? n) && (n <=? 90))%N then ascii_of_N (n + 32) else c.

Fixpoint lower (s : string) : string :=
  match s with
  | EmptyString => EmptyString
  | String c s' => String (lower_char c) (lower s')
  end.

Fixpoint all_chars (p : ascii -> bool) (s : string) : bool :=
  match s with
  | EmptyString => true
  | String c s' => p c && all_chars p s'
  end.

Fixpoint has_char (c : ascii) (s : string) : bool :=
  match s with
  | EmptyString => false
  | String d s' => Ascii.eqb c d || has_char c s'
  end.

(** [s.partition(':')] when [':'] occurs in [s] *)
Fixpoint split_colon (s : string) : option (string * string) :=
  match s with
  | EmptyString => None
  | String c s' =>
      if Ascii.eqb c ":" then Some (EmptyString, s')
      else match split_colon s' with
           | Some (a, b) => Some (String c a, b)
           | None => None
           end
  end.

(** [_splitnetloc]: the text up to the first of ["/?#"], and what follows *)
Fixpoint split_netloc (s : string) : string * string :=
  match s with
  | EmptyString => (EmptyString, EmptyString)
  | String c s' =>
      if Ascii.eqb c "/" || Ascii.eqb c "?" || Ascii.eqb c "#"
      then (EmptyString, s)
      else let (a, b) := split_netloc s' in (String c a, b)
  end.

(** Modelled from the spec: [urllib.parse.urlparse] is a function of the
    Python standard library and is absent from the sources of the program.
    "Parse as a URL" into a scheme and a host, after CPython's [urlsplit]:
    a scheme is a non-empty run of scheme characters that starts with a
    letter and ends at the first [':'], and is lower-cased; a network
    location is present when ["//"] follows, and an unmatched bracket in it
    raises [ValueError]. *)
Definition urlparse (url : string) : Py.result ParseResult :=
  let '(sch, url1) :=
    match split_colon url with
    | Some (String c0 a, b) =>
        if is_alpha c0 && all_chars scheme_char (String c0 a)
        then (lower (String c0 a), b)
        else (EmptyString, url)
    | _ => (EmptyString, url)
    end in
  match url1 with
  | String "/" (String "/" url2) =>
      let (loc, url3) := split_netloc url2 in
      if xorb (has_char "[" loc) (has_char "]" loc)
      then Py.raise (Py.ValueError "Invalid IPv6 URL")
      else Py.ret (mkParseResult sch loc url3)
  | _ => Py.ret (mkParseResult sch EmptyString url1)
  end.

(** [s.split('.')] *)
Fixpoint split_dot (s : string) : list string :=
  match s with
  | EmptyString => [EmptyString]
  | String c s' =>
      match split_dot s' with
      | w :: ws => if Ascii.eqb c "." then EmptyString :: w :: ws
                   else String c w :: ws
      | [] => [String c EmptyString]
      end
  end.

(** The label in front of the longest listed suffix of [labels]; when no
    suffix is listed, the last label. *)
Fixpoint registrable (suffixes : list (list string)) (labels : list string)
  : string :=
  match labels with
  | [] => EmptyString
  | [l] => l
  | l :: ls =>
      if bool_decide (ls ∈ suffixes) then l else registrable suffixes ls
  end.

(** Modelled from the spec: [tldextract] is a library and is absent from
    the sources of the program. "Extract the registrable domain label (the
    second-level name)", example from sub.example.co.uk, here over an
    excerpt of the public suffix list. *)
Definition extract_domain (host : string) : string :=
  registrable [["com"]; ["org"]; ["net"]; ["uk"]; ["co"; "uk"]]
    (split_dot host).

(** The reference implementation of the interface. *)
Definition cpython : UrlLib :=
  Build_UrlLib unquote urlparse extract_domain.

End Lib.

(** The string starts with an escape: a ['%'] followed by two hexadecimal
    digits. *)
Definition starts_with_escape (s : string) : bool :=
  match s with
  | String c (String h (String l _)) =>
      Ascii.eqb c "%"
      && match Lib.hex_digit h, Lib.hex_digit l with
         | Some _, Some _ => true
         | _, _ => false
         end
  | _ => false
  end.

(** An escape occurs somewhere in the string. *)
Fixpoint has_escape (s : string) : bool :=
  match s with
  | EmptyString => false
  | String _ s' => starts_with_escape s || has_escape s'
  end.

(* ================================================================== *)
(** * [retry_with_backoff] *)
(* ================================================================== *)

(** The arguments of the decorator. *)
Record RetryParams : Type := mkRetryParams {
  max_retries : Z;
  initial_delay : Q;
  max_delay : Q;
  factor : Q;
  jitter : bool
}.

(** [retry_with_backoff(max_retries=3, initial_delay=1, max_delay=60,
    factor=2, jitter=True)] *)
Definition retry_defaults : RetryParams := mkRetryParams 3 1 60 2 true.

(** The uses in the program: [@retry_with_backoff(max_retries=3,
    initial_delay=1, max_delay=10)]. *)
Definition retry_used : RetryParams := mkRetryParams 3 1 10 2 true.

(** What one run of the wrapper does, in order. *)
Inductive effect : Type :=
| Call                                   (* the call of the function *)
| LogRetry (attempt : Z) (e : Py.exn)    (* logger.info("Retry attempt ...") *)
| Sleep (delay : Q).                     (* time.sleep(delay) returned *)

(** How the wrapper ends: [return func(...)], the end of the [while] loop
    (the function then returns [None]), or an exception. *)
Inductive outcome (R : Type) : Type :=
| Returned (r : R)
| ReturnedNone
| Raised (e : Py.exn).
Arguments Returned {R} r.
Arguments ReturnedNone {R}.
Arguments Raised {R} e.

(** [time.sleep(delay)]: a negative delay raises [ValueError], any other
    delay is slept. *)
Definition sleep (delay : Q) : Py.result unit :=
  if Qle_bool 0 delay then Py.ret tt
  else Py.raise (Py.ValueError "sleep length must be non-negative").

Section Retry.
Context {W R : Type}.
(** the namespace in which the wrapper runs *)
Variable g : namespace.
(** the number that [random.uniform(0, 1)] draws in the handler of the
    attempt with index [retries] *)
Variable uniform : Z -> Q.
Variable p : RetryParams.
(** the decorated function, acting on the state [W] of its surroundings;
    each call of it ends: it returns or raises *)
Variable func : W -> Py.result R * W.

(** The assignment to [delay] in the handler. *)
Definition next_delay (retries : Z) (delay : Q) : Py.result Q :=
  if jitter p then
    let* u := random_uniform g (uniform retries) in
    Py.ret (Qmin (max_delay p) (delay * factor p + u))
  else Py.ret (Qmin (max_delay p) (delay * factor p)).

Definition later (es : list effect) (r : option (outcome R * W * list effect))
  : option (outcome R * W * list effect) :=
  match r with
  | Some (o, w, es') => Some (o, w, es ++ es')
  | None => None
  end.

(** The [while retries < max_retries] loop; [fuel] bounds the number of
    iterations, [None] means that the bound was reached. An exception of
    the handler itself (of the jitter computation or of [time.sleep]) ends
    the wrapper in place of the error of the function. *)
Fixpoint wrapper_loop (fuel : nat) (retries : Z) (delay : Q) (w : W)
  : option (outcome R * W * list effect) :=
  match fuel with
  | O => None
  | S fuel' =>
      if (retries <? max_retries p)%Z then
        match func w with
        | (inr r, w') => Some (Returned r, w', [Call])
        | (inl e, w') =>
            if (retries =? max_retries p - 1)%Z
            then Some (Raised e, w', [Call; LogRetry (retries + 1) e])
            else
              match next_delay retries delay with
              | inl e' => Some (Raised e', w', [Call; LogRetry (retries + 1) e])
              | inr delay' =>
                  match sleep delay' with
                  | inl e' =>
                      Some (Raised e', w', [Call; LogRetry (retries + 1) e])
                  | inr _ =>
                      later [Call; LogRetry (retries + 1) e; Sleep delay']
                        (wrapper_loop fuel' (retries + 1)%Z delay' w')
                  end
              end
        end
      else Some (ReturnedNone, w, [])
  end.

(** [wrapper]: [retries = 0], [delay = initial_delay], then the loop. *)
Definition wrapper (w : W) : option (outcome R * W * list effect) :=
  wrapper_loop (S (Z.to_nat (max_retries p))) 0 (initial_delay p) w.

(** The state after [n] calls of [func]. *)
Fixpoint after_calls (n : nat) (w : W) : W :=
  match n with
  | O => w
  | S n' => after_calls n' (snd (func w))
  end.

(** What the call number [n] (from 0) of [func] yields. *)
Definition call_result (n : nat) (w : W) : Py.result R :=
  fst (func (after_calls n w)).

End Retry.

(** [retry_with_backoff(...)(func)] *)
Definition retry_with_backoff {W R} (g : namespace) (uniform : Z -> Q)
    (p : RetryParams) (func : W -> Py.result R * W)
  : W -> option (outcome R * W * list effect) :=
  wrapper g uniform p func.

(** When the handler can compute the next delay: without jitter, or in a
    namespace that binds [random] to the module [random]. *)
Definition delay_computable (g : namespace) (p : RetryParams) : Prop :=
  jitter p = false ∨ g !! "random" = Some (PyModule "random").

(** The delays are numbers that [time.sleep] accepts: the three delay
    parameters and the numbers drawn by [random.uniform(0, 1)] are not
    negative. *)
Definition delays_nonnegative (uniform : Z -> Q) (p : RetryParams) : Prop :=
  (0 <= initial_delay p)%Q ∧ (0 <= factor p)%Q ∧ (0 <= max_delay p)%Q
  ∧ ∀ i, (0 <= uniform i)%Q.

(** A function that raises [e] at every call; its state counts the calls. *)
Definition always_raises (e : Py.exn) (n : nat) : Py.result unit * nat :=
  (inl e, S n).

(** A function that raises [e] until its call number [k] (from 1), which
    returns [r]; its state counts the calls. *)
Definition succeeds_at (k : nat) (e : Py.exn) (r : string) (n : nat)
  : Py.result string * nat :=
  (if bool_decide (S n = k) then inr r else inl e, S n).

(** The number of executions of the decorated function in a run. *)
Definition is_call (e : effect) : bool :=
  match e with
  | Call => true
  | _ => false
  end.

Definition calls (es : list effect) : nat :=
  length (List.filter is_call es).

(* ================================================================== *)
(** * [ClipboardMonitor] *)
(* ================================================================== *)

(** The instance state that the polling loop reads and writes;
    [__init__] sets [last_clipboard_content = None]. *)
Record ClipboardMonitor : Type := mkClipboardMonitor {
  last_clipboard_content : option string
}.

Definition ClipboardMonitor_init : ClipboardMonitor :=
  mkClipboardMonitor None.

(** One call of [pyperclip.paste()]: the text of the clipboard, or
    [PyperclipException]. *)
Inductive paste : Type :=
| PasteText (content : string)
| PasteFails (msg : string).

(** What the loop does, in order. *)
Inductive monitor_effect : Type :=
| Emit (content : string)        (* self.clipboard_changed.emit(content) *)
| Trace (msg : string)           (* self.main_window.trace_source(msg) *)
| Nap (seconds : Q).             (* time.sleep(seconds) *)

(** One iteration of the [while True] loop of [_monitor_clipboard]. The
    comparison [current_content != self.last_clipboard_content] is between
    a [str] and either [None] or a [str]. *)
Definition poll (self : ClipboardMonitor) (read : paste)
  : ClipboardMonitor * list monitor_effect :=
  match read with
  | PasteText current_content =>
      if bool_decide (Some current_content ≠ last_clipboard_content self)
      then (mkClipboardMonitor (Some current_content),
            [Emit current_content; Nap (1 # 2)])
      else (self, [Nap (1 # 2)])
  | PasteFails msg =>
      (self, [Trace ("Clipboard access failed: " +:+ msg); Nap (1 # 2)])
  end.

(** The loop never ends by itself; this is the run of its first iterations,
    one for each element of [reads]. *)
Fixpoint _monitor_clipboard (self : ClipboardMonitor) (reads : list paste)
  : ClipboardMonitor * list monitor_effect :=
  match reads with
  | [] => (self, [])
  | read :: reads' =>
      let (self1, es1) := poll self read in
      let (self2, es2) := _monitor_clipboard self1 reads' in
      (self2, es1 ++ es2)
  end.

(** The contents carried by the change events of a run. *)
Fixpoint emitted (es : list monitor_effect) : list string :=
  match es with
  | [] => []
  | Emit content :: es' => content :: emitted es'
  | _ :: es' => emitted es'
  end.

(** The successful reads of a run. *)
Fixpoint texts (reads : list paste) : list string :=
  match reads with
  | [] => []
  | PasteText content :: reads' => content :: texts reads'
  | PasteFails _ :: reads' => texts reads'
  end.

(** Change detection as a function of the samples alone: a sample is a
    change when it differs from the sample before it; [prev] is the sample
    before the first one, [None] when there is none. *)
Fixpoint changes (prev : option string) (samples : list string) : list string :=
  match samples with
  | [] => []
  | x :: samples' =>
      if bool_decide (prev = Some x) then changes prev samples'
      else x :: changes (Some x) samples'
  end.

(* ================================================================== *)
(** * The configuration *)
(* ================================================================== *)

(** The value of the key ["replace_domain"]. *)
Record ReplaceDomain : Type := mkReplaceDomain {
  old : option string;
  new : option string
}.

(** The JSON object of [config.json]; [None] is an absent key. *)
Record Config : Type := mkConfig {
  hotkey : option string;
  double_press_delay : option Q;
  condition_type : option string;
  condition_value : option string;
  enable_domain_replacement : option bool;
  replace_domain : option ReplaceDomain;
  suffix : option string;
  allowed_protocols : option (list string)
}.

(** The keys of the object, in the order in which the program writes them. *)
Definition keys (c : Config) : list string :=
  (if hotkey c is Some _ then ["hotkey"] else []) ++
  (if double_press_delay c is Some _ then ["double_press_delay"] else []) ++
  (if condition_type c is Some _ then ["condition_type"] else []) ++
  (if condition_value c is Some _ then ["condition_value"] else []) ++
  (if enable_domain_replacement c is Some _ then ["enable_domain_replacement"] else []) ++
  (if replace_domain c is Some _ then ["replace_domain"] else []) ++
  (if suffix c is Some _ then ["suffix"] else []) ++
  (if allowed_protocols c is Some _ then ["allowed_protocols"] else []).

(** The file [config.json]: its content when it exists, and whether it can
    be opened for writing. A file that exists is one that can be read and
    holds a JSON object of the configuration: a file that cannot be read,
    or whose text is no such object, is outside this state space. *)
Record Disk : Type := mkDisk {
  config_json : option Config;
  writable : bool
}.

(** [with open("config.json", "w") as f: json.dump(c, f, indent=4)]. The
    failure is that of [open]: the file cannot be opened for writing,
    [PermissionError] (an [OSError]) is raised and the file is as it was.
    A failure of the write after a successful [open] is not in the state
    space. *)
Definition dump (d : Disk) (c : Config) : Py.result Disk :=
  if writable d then Py.ret (mkDisk (Some c) true)
  else Py.raise (Py.OSError "[Errno 13] Permission denied: 'config.json'").

(** [with open("config.json", "r") as f: json.load(f)] *)
Definition load (d : Disk) : Py.result Config :=
  match config_json d with
  | Some c => Py.ret c
  | None =>
      Py.raise (Py.OSError "[Errno 2] No such file or directory: 'config.json'")
  end.

(** [default_config] of [MainWindow.load_configuration] *)
Definition default_config : Config :=
  {| hotkey := Some "ctrl";
     double_press_delay := Some (3 # 10);
     condition_type := Some "contains";
     condition_value := Some "example";
     enable_domain_replacement := Some true;
     replace_domain := Some (mkReplaceDomain (Some "old.com") (Some "new.com"));
     suffix := Some "/suffix";
     allowed_protocols := Some ["http"; "https"] |}.

(** The body of [MainWindow.load_configuration]: the new value of
    [self.config] and the state of the file. *)
Definition load_configuration (d : Disk) : Py.result (Config * Disk) :=
  let* d1 :=
    if negb (bool_decide (is_Some (config_json d)))
    then dump d default_config
    else Py.ret d in
  let* config := load d1 in
  Py.ret (config, d1).

(* ================================================================== *)
(** * [MainWindow]: validation and rewriting *)
(* ================================================================== *)

(** [config.get("allowed_protocols", ["http", "https"])], the first
    statement of [check_domain_conditions]. *)
Definition get_allowed_protocols (config : Config) : list string :=
  default ["http"; "https"] (allowed_protocols config).

(** The [return] expression of [check_domain_conditions]: a dictionary from
    the condition type to the test, looked up with [.get] and a default
    that rejects. *)
Definition condition_test (config : Config) (domain : string) : bool :=
  let condition_type := condition_type config in
  let condition_value := default "" (condition_value config) in
  let tests : gmap string (string -> bool) :=
    {[ "contains" := (fun x => Py.contains condition_value x);
       "startswith" := (fun x => Py.startswith x condition_value);
       "endswith" := (fun x => Py.endswith x condition_value) ]} in
  default (fun _ => false) (condition_type ≫= (tests !!.)) domain.

(** [MainWindow.check_domain_conditions]. The name [result] is not a
    parameter or a local variable of this function, so it is a global
    name. *)
Definition check_domain_conditions (g : namespace) (domain : string)
    (config : Config) : Py.result bool :=
  let allowed_protocols := get_allowed_protocols config in
  let* result := load_global g "result" in
  let* result_scheme := getattr_scheme result in
  if negb (Py.in_list result_scheme allowed_protocols)
  then Py.ret false
  else Py.ret (condition_test config domain).

(** [MainWindow.is_valid_and_ready_url] *)
Definition is_valid_and_ready_url `{UrlLib} (g : namespace) (config : Config)
    (url : string) : Py.result bool :=
  let decoded_url := unquote url in
  let* result := urlparse decoded_url in
  if Py.truthy (scheme result) && Py.truthy (netloc result) then
    let domain := extract_domain (netloc result) in
    check_domain_conditions g domain config
  else Py.ret false.

(** [MainWindow.modify_url]: the returned URL and the message passed to
    [trace_source]. *)
Definition modify_url (config : Config) (url : string)
  : Py.result (string * list string) :=
  let* url1 :=
    if default false (enable_domain_replacement config) then
      match replace_domain config with
      | None => Py.raise (Py.KeyError "replace_domain")
      | Some rd =>
          let old_domain := default "" (old rd) in
          let new_domain := default "" (new rd) in
          Py.ret (Py.replace url old_domain new_domain)
      end
    else Py.ret url in
  let suffix := default "" (suffix config) in
  let url2 :=
    if Py.truthy suffix && negb (Py.endswith url1 suffix)
    then url1 +:+ suffix
    else url1 in
  Py.ret (url2, ["Modified URL: " +:+ url2]).

(** The URL that [modify_url] returns. *)
Definition transform (config : Config) (url : string) : Py.result string :=
  let* r := modify_url config url in
  Py.ret (fst r).

(** The configuration of the validation scenario:
    [{condition_type: "contains", condition_value: "example",
      allowed_protocols: ["http", "https"]}]. *)
Definition validation_scenario : Config :=
  {| hotkey := None;
     double_press_delay := None;
     condition_type := Some "contains";
     condition_value := Some "example";
     enable_domain_replacement := None;
     replace_domain := None;
     suffix := None;
     allowed_protocols := Some ["http"; "https"] |}.

(** A configuration of the rewriting rules alone:
    [{enable_domain_replacement: true, replace_domain: {old, new}, suffix}]. *)
Definition rewrite_rules (old_domain new_domain suffix : string) : Config :=
  {| hotkey := None;
     double_press_delay := None;
     condition_type := None;
     condition_value := None;
     enable_domain_replacement := Some true;
     replace_domain := Some (mkReplaceDomain (Some old_domain) (Some new_domain));
     suffix := Some suffix;
     allowed_protocols := None |}.

(** A configuration of the condition alone. *)
Definition condition_only (type value : string) : Config :=
  {| hotkey := None;
     double_press_delay := None;
     condition_type := Some type;
     condition_value := Some value;
     enable_domain_replacement := None;
     replace_domain := None;
     suffix := None;
     allowed_protocols := None |}.

(** A configuration that lists no protocol at all. *)
Definition no_protocols : Config :=
  {| hotkey := None;
     double_press_delay := None;
     condition_type := Some "contains";
     condition_value := Some "example";
     enable_domain_replacement := None;
     replace_domain := None;
     suffix := None;
     allowed_protocols := Some [] |}.

(* ================================================================== *)
(** * [SettingsWindow] *)
(* ================================================================== *)

(** The values that the widgets of the settings window hold when [Save] is
    pressed. *)
Record SettingsWindow : Type := mkSettingsWindow {
  hotkey_edit : string;               (* hotkey_edit.text() *)
  delay_slider : Z;                   (* delay_slider.value() *)
  condition_combo : string;           (* condition_combo.currentText() *)
  condition_value_edit : string;      (* condition_value_edit.text() *)
  domain_replacement_check : bool;    (* domain_replacement_check.isChecked() *)
  old_domain_edit : string;           (* old_domain_edit.text() *)
  new_domain_edit : string;           (* new_domain_edit.text() *)
  suffix_edit : string                (* suffix_edit.text() *)
}.

(** [new_config] of [SettingsWindow.save_configuration] *)
Definition new_config (self : SettingsWindow) : Config :=
  {| hotkey := Some (hotkey_edit self);
     double_press_delay := Some (inject_Z (delay_slider self) / 10)%Q;
     condition_type := Some (condition_combo self);
     condition_value := Some (condition_value_edit self);
     enable_domain_replacement := Some (domain_replacement_check self);
     replace_domain :=
       Some (mkReplaceDomain (Some (old_domain_edit self))
                             (Some (new_domain_edit self)));
     suffix := Some (suffix_edit self);
     allowed_protocols := None |}.

(** What [save_configuration] shows and traces. *)
Inductive settings_effect : Type :=
| Information (text : string)      (* QMessageBox.information *)
| Critical (text : string)         (* QMessageBox.critical *)
| TraceSource (msg : string)       (* self.trace_source *)
| Close.                           (* self.close() *)

(** The body of [SettingsWindow.save_configuration]; an exception of the
    write is caught. *)
Definition save_configuration (self : SettingsWindow) (d : Disk)
  : Disk * list settings_effect :=
  let new_config := new_config self in
  match dump d new_config with
  | inr d' =>
      (d', [Information "Settings saved successfully!";
            TraceSource "Configuration saved successfully.";
            Close])
  | inl e =>
      (d, [TraceSource ("Error saving configuration: " +:+ Py.str e);
           Critical ("Failed to save settings: " +:+ Py.str e)])
  end.

(* ================================================================== *)
(** * [MainWindow]: the handlers *)
(* ================================================================== *)

(** What the handlers of the main window do, in order. *)
Inductive window_effect : Type :=
| TraceLine (msg : string)          (* self.trace_source(msg) *)
| StartURLThread (url : string).    (* URLThread(url), connect, thread.start() *)

(** A handler: what it did, and how it ended. *)
Definition handled : Type := (list window_effect * Py.result unit)%type.

(** [MainWindow.open_url]: [modify_url] traces the modified URL, then the
    URL is traced again and handed to a new [URLThread]. *)
Definition open_url (config : Config) (url : string) : handled :=
  match modify_url config url with
  | inl e => ([], inl e)
  | inr (modified_url, traces) =>
      (map TraceLine traces
         ++ [TraceLine ("Opening URL: " +:+ modified_url);
             StartURLThread modified_url],
       inr tt)
  end.

(** [MainWindow.on_clipboard_change], the slot of [clipboard_changed]. *)
Definition on_clipboard_change `{UrlLib} (g : namespace) (config : Config)
    (content : string) : handled :=
  match is_valid_and_ready_url g config content with
  | inl e => ([], inl e)
  | inr true => open_url config content
  | inr false => ([], inr tt)
  end.

(** [MainWindow.handle_hotkey]. The clipboard is read twice: [first] is
    the read of the [if], [second] the read that is assigned to [url].
    [PyperclipException] is the only exception that the handler catches. *)
Definition handle_hotkey `{UrlLib} (g : namespace) (config : Config)
    (first second : paste) : handled :=
  let body : handled :=
    match first with
    | PasteFails msg => ([], inl (Py.PyperclipException msg))
    | PasteText text =>
        if Py.truthy text then
          match second with
          | PasteFails msg => ([], inl (Py.PyperclipException msg))
          | PasteText url =>
              let traced := [TraceLine ("URL from clipboard: " +:+ url)] in
              match is_valid_and_ready_url g config url with
              | inl e => (traced, inl e)
              | inr true =>
                  let (es, r) := open_url config url in (traced ++ es, r)
              | inr false => (traced, inr tt)
              end
          end
        else ([], inr tt)
    end in
  match body with
  | (es, inl (Py.PyperclipException msg)) =>
      (es ++ [TraceLine ("No text found in clipboard: " +:+ msg)], inr tt)
  | _ => body
  end.

(** The URLs handed to a [URLThread]. *)
Fixpoint opened (es : list window_effect) : list string :=
  match es with
  | [] => []
  | StartURLThread url :: es' => url :: opened es'
  | TraceLine _ :: es' => opened es'
  end.

(** [str.capitalize()] on ASCII letters: the first character in upper case,
    the others in lower case. *)
Definition upper_char (c : ascii) : ascii :=
  let n := N_of_ascii c in
  if ((97 <=? n) && (n <=? 122))%N then ascii_of_N (n - 32) else c.

Definition capitalize (s : string) : string :=
  match s with
  | EmptyString => EmptyString
  | String c s' => String (upper_char c) (Lib.lower s')
  end.

(** [self.config["hotkey"] = value] *)
Definition set_hotkey (config : Config) (value : string) : Config :=
  {| hotkey := Some value;
     double_press_delay := double_press_delay config;
     condition_type := condition_type config;
     condition_value := condition_value config;
     enable_domain_replacement := enable_domain_replacement config;
     replace_domain := replace_domain config;
     suffix := suffix config;
     allowed_protocols := allowed_protocols config |}.

(** What [setup_hotkey] does, in order. *)
Inductive hotkey_effect : Type :=
| Registered (combination : string)  (* keyboard.add_hotkey returned *)
| Asked                              (* QInputDialog.getText *)
| Warned.                            (* QMessageBox.warning *)

(** The body of [MainWindow.setup_hotkey]. [refused] tells the
    combinations for which [keyboard.add_hotkey] raises [ValueError];
    [answer] is the pair [(new_hotkey, ok)] that the dialog returns. The
    result carries [self.config] as the function leaves it. *)
Definition setup_hotkey (refused : string -> bool) (config : Config)
    (answer : string * bool)
  : list hotkey_effect * Config * Py.result unit :=
  match hotkey config with
  | None => ([], config, inl (Py.KeyError "hotkey"))
  | Some value =>
      let key := capitalize value in
      if refused (key +:+ "+c") then
        let (new_hotkey, ok) := answer in
        if ok && Py.truthy new_hotkey then
          let config' := set_hotkey config (Lib.lower new_hotkey) in
          if refused (new_hotkey +:+ "+c")
          then ([Asked], config', inl (Py.ValueError (new_hotkey +:+ "+c")))
          else ([Asked; Registered (new_hotkey +:+ "+c")], config', inr tt)
        else ([Asked; Warned], config, inr tt)
      else ([Registered (key +:+ "+c")], config, inr tt)
  end.

(** The combinations registered by a run of [setup_hotkey]. *)
Fixpoint registered (es : list hotkey_effect) : list string :=
  match es with
  | [] => []
  | Registered combination :: es' => combination :: registered es'
  | _ :: es' => registered es'
  end.

(* ================================================================== *)
(** * The decorated functions *)
(* ================================================================== *)

(** [MainWindow.load_configuration] as the program calls it, under
    [@retry_with_backoff(max_retries=3, initial_delay=1, max_delay=10)].
    The state is the file and [self.config], which is unset ([None])
    before the first load. *)
Definition load_configuration_body (st : Disk * option Config)
  : Py.result unit * (Disk * option Config) :=
  match load_configuration (fst st) with
  | inr (config, d') => (inr tt, (d', Some config))
  | inl e => (inl e, st)
  end.

Definition load_configuration_decorated (uniform : Z -> Q)
  : Disk * option Config
    -> option (outcome unit * (Disk * option Config) * list effect) :=
  retry_with_backoff module_globals uniform retry_used load_configuration_body.

(** [SettingsWindow.save_configuration] as the program calls it, under the
    same decorator. The state is the file and what the window has shown. *)
Definition save_configuration_body (self : SettingsWindow)
    (st : Disk * list settings_effect)
  : Py.result unit * (Disk * list settings_effect) :=
  let (d', es) := save_configuration self (fst st) in
  (inr tt, (d', snd st ++ es)).

Definition save_configuration_decorated (uniform : Z -> Q)
    (self : SettingsWindow)
  : Disk * list settings_effect
    -> option (outcome unit * (Disk * list settings_effect) * list effect) :=
  retry_with_backoff module_globals uniform retry_used
    (save_configuration_body self).

(* ================================================================== *)
(** * Observations on runs *)
(* ================================================================== *)

(** The delays of the sleeps of a run of the retry wrapper. *)
Fixpoint sleeps (es : list effect) : list Q :=
  match es with
  | [] => []
  | Sleep delay :: es' => delay :: sleeps es'
  | _ :: es' => sleeps es'
  end.

(** The attempt numbers that a run of the retry wrapper logs. *)
Fixpoint logged (es : list effect) : list Z :=
  match es with
  | [] => []
  | LogRetry attempt _ :: es' => attempt :: logged es'
  | _ :: es' => logged es'
  end.

(** The number of sleeps of a run of the clipboard loop. *)
Fixpoint naps (es : list monitor_effect) : nat :=
  match es with
  | [] => 0
  | Nap _ :: es' => S (naps es')
  | _ :: es' => naps es'
  end.

(** The messages traced by a run of the clipboard loop. *)
Fixpoint traced (es : list monitor_effect) : list string :=
  match es with
  | [] => []
  | Trace msg :: es' => msg :: traced es'
  | _ :: es' => traced es'
  end.

(** The messages of the failed reads of a run. *)
Fixpoint failures (reads : list paste) : list string :=
  match reads with
  | [] => []
  | PasteFails msg :: reads' => msg :: failures reads'
  | PasteText _ :: reads' => failures reads'
  end.

(** No element equals the one before it; [prev] stands before the first. *)
Fixpoint stutter_free (prev : option string) (l : list string) : bool :=
  match l with
  | [] => true
  | x :: l' => negb (bool_decide (prev = Some x)) && stutter_free (Some x) l'
  end.

(* ================================================================== *)
(** * Properties of the string methods *)
(* ================================================================== *)

Section StringFacts.
Implicit Types s t p x sub old new : string.
#[local] Arguments String.append !_ _ /.

Lemma prefix_nil s : String.prefix "" s = true.
Proof. by destruct s. Qed.

Lemma prefix_cons a p b s :
  String.prefix (String a p) (String b s)
  = bool_decide (a = b) && String.prefix p s.
Proof.
  simpl. destruct (ascii_dec a b) as [->|Hne].
  - by rewrite bool_decide_eq_true_2.
  - by rewrite bool_decide_eq_false_2.
Qed.

(** [s.startswith(p)] holds exactly when [s] is [p] followed by some text. *)
Lemma startswith_spec s p :
  Py.startswith s p = true ↔ ∃ t, s = p +:+ t.
Proof.
  unfold Py.startswith. revert s.
  induction p as [|a p IH]; intros s.
  - rewrite prefix_nil. split; [intros _; by exists s | done].
  - destruct s as [|b s].
    + simpl. split; [done | intros [t Ht]; discriminate].
    + rewrite prefix_cons, andb_true_iff, bool_decide_eq_true, IH.
      split.
      * intros [-> [t ->]]. by exists t.
      * intros [t Ht]. injection Ht as -> ->. split; [done | by exists t].
Qed.

Lemma prefix_app p t : String.prefix p (p +:+ t) = true.
Proof. apply (startswith_spec (p +:+ t) p). by exists t. Qed.

(** [s.endswith(x)] holds exactly when [s] is some text followed by [x]. *)
Lemma endswith_spec s x :
  Py.endswith s x = true ↔ ∃ h, s = h +:+ x.
Proof.
  induction s as [|c s IH]; cbn [Py.endswith].
  - destruct (String.eqb_spec "" x) as [<-|Hne].
    + split; [intros _; by exists "" | done].
    + split; [done |].
      intros [h Hh]. destruct h; simpl in Hh; [done | discriminate].
  - destruct (String.eqb_spec (String c s) x) as [<-|Hne].
    + split; [intros _; by exists "" | done].
    + rewrite IH. split.
      * intros [h ->]. by exists (String c h).
      * intros [h Hh]. destruct h as [|c' h]; simpl in Hh.
        -- by subst x.
        -- injection Hh as -> ->. by exists h.
Qed.

Lemma endswith_app s x : Py.endswith (s +:+ x) x = true.
Proof. apply endswith_spec. by exists s. Qed.

(** [sub in s] holds exactly when [sub] occurs somewhere in [s]. *)
Lemma contains_spec sub s :
  Py.contains sub s = true ↔ ∃ h t, s = h +:+ sub +:+ t.
Proof.
  induction s as [|c s IH]; cbn [Py.contains].
  - destruct (String.prefix sub "") eqn:Hp.
    + apply (startswith_spec "" sub) in Hp as [t Ht].
      split; [intros _; exists "", t; exact Ht | done].
    + split; [done |]. intros (h & t & Hh).
      destruct h; simpl in Hh; [| discriminate].
      assert (String.prefix sub "" = true) as Hp'
        by (apply (startswith_spec "" sub); by exists t).
      congruence.
  - destruct (String.prefix sub (String c s)) eqn:Hp.
    + apply (startswith_spec (String c s) sub) in Hp as [t Ht].
      split; [intros _; exists "", t; exact Ht | done].
    + rewrite IH. split.
      * intros (h & t & ->). by exists (String c h), t.
      * intros (h & t & Hh). destruct h as [|c' h]; simpl in Hh.
        -- assert (String.prefix sub (String c s) = true) as Hp'
             by (apply (startswith_spec (String c s) sub); by exists t).
           congruence.
        -- injection Hh as -> ->. by exists h, t.
Qed.

Lemma contains_no_prefix sub s :
  Py.contains sub s = false → String.prefix sub s = false.
Proof.
  intros H. destruct (String.prefix sub s) eqn:Hp; [| done].
  destruct s; cbn [Py.contains] in H; by rewrite Hp in H.
Qed.

Lemma contains_tail sub c s :
  Py.contains sub (String c s) = false → Py.contains sub s = false.
Proof. cbn [Py.contains]. by destruct (String.prefix sub (String c s)). Qed.

(** Skipping the rest of an occurrence. *)
Lemma replace_scan_skip old new x t :
  Py.replace_scan old new (String.length x) (x +:+ t)
  = Py.replace_scan old new 0 t.
Proof.
  induction x as [|c x IH]; simpl.
  - by destruct t.
  - done.
Qed.

(** The three equations of [str.replace] for a non-empty [old]: the empty
    string is kept; at an occurrence, [new] is emitted and the scan goes
    on behind the occurrence; elsewhere one character is copied. *)
Lemma replace_empty old new : Py.replace "" old new = match old with "" => new | _ => "" end.
Proof. by destruct old. Qed.

Lemma replace_at_occurrence old new t :
  old ≠ "" →
  Py.replace (old +:+ t) old new = new +:+ Py.replace t old new.
Proof.
  destruct old as [|a old]; [done | intros _].
  unfold Py.replace.
  change (String a old +:+ t) with (String a (old +:+ t)).
  cbn [Py.replace_scan].
  change (String a (old +:+ t)) with (String a old +:+ t).
  rewrite prefix_app. cbn [String.length].
  replace (S (String.length old) - 1) with (String.length old) by lia.
  by rewrite replace_scan_skip.
Qed.

Lemma replace_elsewhere old new c s :
  String.prefix old (String c s) = false →
  Py.replace (String c s) old new = String c (Py.replace s old new).
Proof.
  destruct old as [|a old]; [done | intros Hp].
  unfold Py.replace. cbn [Py.replace_scan]. by rewrite Hp.
Qed.

(** A string in which [old] does not occur is left as it is. *)
Lemma replace_absent s old new :
  Py.contains old s = false → Py.replace s old new = s.
Proof.
  induction s as [|c s IH]; intros Hc.
  - destruct old; [done | done].
  - rewrite replace_elsewhere by by apply contains_no_prefix.
    f_equal. apply IH. by eapply contains_tail.
Qed.

End StringFacts.

(** The methods on examples, with the values Python gives. *)
Example string_methods :
  Py.replace "https://old.com/page old.com" "old.com" "new.com"
  = "https://new.com/page new.com"
  ∧ Py.replace "aaa" "aa" "b" = "ba"
  ∧ Py.replace "abc" "" "x" = "xaxbxcx"
  ∧ Py.endswith "abc" "bc" = true
  ∧ Py.endswith "abc" "" = true
  ∧ Py.endswith "abc" "ab" = false
  ∧ Py.contains "b" "abc" = true
  ∧ Py.contains "" "" = true
  ∧ Py.contains "B" "abc" = false.
Proof. repeat split; reflexivity. Qed.

(** The reference library on examples. *)
Example reference_library :
  Lib.urlparse "ftp://example.com"
  = inr (mkParseResult "ftp" "example.com" "")
  ∧ Lib.urlparse "HTTPS://sub.Example.com/path?x#y"
    = inr (mkParseResult "https" "sub.Example.com" "/path?x#y")
  ∧ Lib.urlparse "" = inr (mkParseResult "" "" "")
  ∧ Lib.urlparse "example.com/a:b" = inr (mkParseResult "" "" "example.com/a:b")
  ∧ Lib.urlparse "mailto:someone@example.com"
    = inr (mkParseResult "mailto" "" "someone@example.com")
  ∧ Lib.urlparse "http://[::1" = inl (Py.ValueError "Invalid IPv6 URL")
  ∧ Lib.extract_domain "sub.example.co.uk" = "example"
  ∧ Lib.extract_domain "example.com" = "example"
  ∧ Lib.unquote "%%41%zz%4" = "%A%zz%4".
Proof. repeat split; reflexivity. Qed.

(* ================================================================== *)
(** * Properties of [retry_with_backoff] *)
(* ================================================================== *)

Lemma module_globals_result : module_globals !! "result" = None.
Proof. by vm_compute. Qed.

Lemma module_globals_random : module_globals !! "random" = None.
Proof. by vm_compute. Qed.

Section RetryFacts.
Context {W R : Type}.
Variable g : namespace.
Variable uniform : Z -> Q.
Variable p : RetryParams.
Variable func : W -> Py.result R * W.

Abbreviation loop := (wrapper_loop g uniform p func).
Abbreviation result_of := (call_result func).
Abbreviation state_after := (after_calls func).

Lemma calls_app es es' : calls (es ++ es') = calls es + calls es'.
Proof. unfold calls. by rewrite List.filter_app, length_app. Qed.

Lemma call_result_S n w : result_of (S n) w = result_of n (snd (func w)).
Proof. done. Qed.

(** The loop ends: a bound above the number of attempts that are left is
    never reached. *)
Lemma wrapper_loop_total fuel retries delay w :
  Z.to_nat (max_retries p - retries) < fuel →
  is_Some (loop fuel retries delay w).
Proof.
  revert retries delay w.
  induction fuel as [|fuel IH]; intros retries delay w Hfuel; [lia |].
  cbn [wrapper_loop].
  destruct (Z.ltb_spec retries (max_retries p)) as [Hlt|Hge]; [| done].
  destruct (func w) as [[e|r] w']; [| done].
  destruct (retries =? max_retries p - 1)%Z; [done |].
  destruct (next_delay g uniform p retries delay) as [e'|delay']; [done |].
  destruct (sleep delay') as [e'|[]]; [done |].
  destruct (IH (retries + 1)%Z delay' w') as [[[o w''] es] Hrun]; [lia |].
  rewrite Hrun. done.
Qed.

Lemma wrapper_total w : is_Some (wrapper g uniform p func w).
Proof. apply wrapper_loop_total. lia. Qed.

Lemma next_delay_computable retries delay :
  delay_computable g p → ∃ d, next_delay g uniform p retries delay = inr d.
Proof.
  unfold next_delay, random_uniform, load_global.
  intros [-> | ->]; [by eexists |].
  destruct (jitter p); by eexists.
Qed.

Lemma sleep_nonnegative d : (0 <= d)%Q → sleep d = inr tt.
Proof.
  intros Hd. unfold sleep.
  by rewrite (proj2 (Qle_bool_iff 0 d) Hd).
Qed.

(** [random.uniform] returns the number drawn, when it returns. *)
Lemma random_uniform_sample sample u :
  random_uniform g sample = inr u → u = sample.
Proof.
  unfold random_uniform, Py.bind, Py.ret, Py.raise.
  intros Hu. repeat case_match; congruence.
Qed.

(** With delays that are not negative, the handler computes a delay that is
    not negative either, and sleeps it. *)
Lemma next_delay_slept retries delay :
  delay_computable g p →
  delays_nonnegative uniform p →
  (0 <= delay)%Q →
  ∃ d, next_delay g uniform p retries delay = inr d
       ∧ (0 <= d)%Q ∧ sleep d = inr tt.
Proof.
  intros Hd (Hinit & Hfactor & Hmax & Hu) Hdelay.
  pose proof (Qmult_le_0_compat _ _ Hdelay Hfactor) as Hprod.
  pose proof (Hu retries) as Hsample.
  destruct (next_delay_computable retries delay Hd) as [d Hnext].
  exists d. split; [done |].
  assert (0 <= d)%Q as Hpos.
  { revert Hnext. unfold next_delay.
    destruct (jitter p).
    - destruct (random_uniform g (uniform retries)) as [e|u] eqn:Hru;
        cbn; [done |].
      apply random_uniform_sample in Hru as ->.
      intros [= <-]. apply Q.min_glb; [done | lra].
    - intros [= <-]. apply Q.min_glb; [done | lra]. }
  split; [done | by apply sleep_nonnegative].
Qed.

(** The attempt with index [retries + j] is the first that succeeds. *)
Lemma wrapper_loop_success j :
  ∀ fuel retries delay w r,
    delay_computable g p →
    delays_nonnegative uniform p →
    (0 <= delay)%Q →
    j < fuel →
    (retries + Z.of_nat j < max_retries p)%Z →
    (∀ n, n < j → ∃ e, result_of n w = inl e) →
    result_of j w = inr r →
    ∃ es, loop fuel retries delay w
          = Some (Returned r, state_after (S j) w, es)
          ∧ calls es = S j.
Proof.
  induction j as [|j IH];
    intros fuel retries delay w r Hd Hnn Hdelay Hfuel Hmax Hfail Hok;
    (destruct fuel as [|fuel]; [lia |]); cbn [wrapper_loop];
    (destruct (Z.ltb_spec retries (max_retries p)) as [_|?]; [| lia]).
  - unfold call_result in Hok. cbn [after_calls] in *.
    destruct (func w) as [[e|r'] w']; simplify_eq/=. by exists [Call].
  - destruct (Hfail 0) as [e He]; [lia |].
    unfold call_result in He. cbn [after_calls] in He.
    rewrite call_result_S in Hok.
    assert (∀ n, n < j → ∃ e, result_of n (snd (func w)) = inl e) as Hfail'.
    { intros n Hn. rewrite <- call_result_S. apply Hfail. lia. }
    cbn [after_calls].
    destruct (func w) as [[e0|r'] w']; simplify_eq/=.
    destruct (Z.eqb_spec retries (max_retries p - 1)) as [?|_]; [lia |].
    destruct (next_delay_slept retries delay Hd Hnn Hdelay)
      as (d & -> & Hpos & ->).
    destruct (IH fuel (retries + 1)%Z d w' r Hd Hnn Hpos)
      as (es & -> & Hcalls); [lia | lia | done | done |].
    eexists. split; [done |]. rewrite calls_app, Hcalls. done.
Qed.

(** Every attempt from index [retries] to the last one fails. *)
Lemma wrapper_loop_exhausted j :
  ∀ fuel retries delay w,
    delay_computable g p →
    delays_nonnegative uniform p →
    (0 <= delay)%Q →
    j < fuel →
    (retries + Z.of_nat j = max_retries p - 1)%Z →
    (∀ n, n ≤ j → ∃ e, result_of n w = inl e) →
    ∃ e es, result_of j w = inl e
            ∧ loop fuel retries delay w
              = Some (Raised e, state_after (S j) w, es)
            ∧ calls es = S j.
Proof.
  induction j as [|j IH];
    intros fuel retries delay w Hd Hnn Hdelay Hfuel Hmax Hfail;
    (destruct fuel as [|fuel]; [lia |]); cbn [wrapper_loop];
    (destruct (Z.ltb_spec retries (max_retries p)) as [_|?]; [| lia]);
    (destruct (Hfail 0) as [e He]; [lia |]);
    pose proof He as He0;
    unfold call_result in He; cbn [after_calls] in He.
  - cbn [after_calls].
    destruct (func w) as [[e0|r'] w']; simplify_eq/=.
    destruct (Z.eqb_spec retries (max_retries p - 1)) as [_|?]; [| lia].
    exists e, [Call; LogRetry (retries + 1) e]. done.
  - assert (∀ n, n ≤ j → ∃ e, result_of n (snd (func w)) = inl e) as Hfail'.
    { intros n Hn. rewrite <- call_result_S. apply Hfail. lia. }
    rewrite call_result_S. cbn [after_calls].
    destruct (func w) as [[e0|r'] w']; simplify_eq/=.
    destruct (Z.eqb_spec retries (max_retries p - 1)) as [?|_]; [lia |].
    destruct (next_delay_slept retries delay Hd Hnn Hdelay)
      as (d & -> & Hpos & ->).
    destruct (IH fuel (retries + 1)%Z d w' Hd Hnn Hpos)
      as (e' & es & He' & -> & Hcalls); [lia | lia | done |].
    exists e'. eexists. split; [done |]. split; [done |].
    rewrite calls_app, Hcalls. done.
Qed.



End RetryFacts.

(** C2 (as the code behaves). With [jitter] on, as by default and at
    every use in the program, and more than one attempt allowed, the wrapper
    does not retry: after the first failed attempt the handler evaluates
    [random.uniform], the module never imports [random], and [NameError] is
    raised in place of the error of the operation, after one execution. *)
Theorem retry_jitter_raises_NameError {W R : Type} (uniform : Z → Q)
    (p : RetryParams) (func : W → Py.result R * W) (w w' : W) (e : Py.exn) :
  jitter p = true →
  (1 < max_retries p)%Z →
  func w = (inl e, w') →
  retry_with_backoff module_globals uniform p func w
  = Some (Raised (Py.NameError "random"), w', [Call; LogRetry 1 e]).
Proof.
  intros Hj Hmax Hfunc. unfold retry_with_backoff, wrapper.
  cbn [wrapper_loop].
  destruct (Z.ltb_spec 0 (max_retries p)) as [_|?]; [| lia].
  rewrite Hfunc.
  destruct (Z.eqb_spec 0 (max_retries p - 1)) as [?|_]; [lia |].
  unfold next_delay, random_uniform, load_global.
  by rewrite Hj, module_globals_random.
Qed.

(** The program's own use of the decorator, on an operation that fails at
    every attempt: one execution, then [NameError]. *)
Lemma retry_jitter_raises_NameError_witness :
  retry_with_backoff module_globals (λ _, 0%Q) retry_used
    (always_raises (Py.Exception "boom")) 0
  = Some (Raised (Py.NameError "random"), 1,
          [Call; LogRetry 1 (Py.Exception "boom")]).
Proof.
  apply retry_jitter_raises_NameError; [reflexivity | reflexivity | reflexivity].
Defined.

(** An operation that would succeed at its second attempt gets no second
    attempt either. *)
Example retry_jitter_no_second_attempt :
  retry_with_backoff module_globals (λ _, 0%Q) retry_used
    (succeeds_at 2 (Py.Exception "boom") "ok") 0
  = Some (Raised (Py.NameError "random"), 1,
          [Call; LogRetry 1 (Py.Exception "boom")]).
Proof. by vm_compute. Qed.

(** Without jitter the same two operations are retried as intended. *)
Example retry_no_jitter_exhausts :
  retry_with_backoff module_globals (λ _, 0%Q) (mkRetryParams 3 1 10 2 false)
    (always_raises (Py.Exception "boom")) 0
  = Some (Raised (Py.Exception "boom"), 3,
          [Call; LogRetry 1 (Py.Exception "boom"); Sleep (Qmin 10 (1 * 2));
           Call; LogRetry 2 (Py.Exception "boom");
           Sleep (Qmin 10 (Qmin 10 (1 * 2) * 2));
           Call; LogRetry 3 (Py.Exception "boom")]).
Proof. reflexivity. Qed.

(** A negative delay ends the wrapper at the first sleep: [time.sleep]
    raises [ValueError] in place of the error of the function. *)
Example retry_negative_delay :
  retry_with_backoff module_globals (λ _, 0%Q)
    (mkRetryParams 3 1 (-5) 2 false) (always_raises (Py.Exception "boom")) 0
  = Some (Raised (Py.ValueError "sleep length must be non-negative"), 1,
          [Call; LogRetry 1 (Py.Exception "boom")]).
Proof. reflexivity. Qed.

Example retry_no_jitter_second_attempt :
  retry_with_backoff module_globals (λ _, 0%Q) (mkRetryParams 3 1 10 2 false)
    (succeeds_at 2 (Py.Exception "boom") "ok") 0
  = Some (Returned "ok", 2,
          [Call; LogRetry 1 (Py.Exception "boom"); Sleep (Qmin 10 (1 * 2));
           Call]).
Proof. reflexivity. Qed.

(* ================================================================== *)
(** * Properties of [ClipboardMonitor] *)
(* ================================================================== *)

Lemma emitted_app es es' : emitted (es ++ es') = emitted es ++ emitted es'.
Proof.
  induction es as [|[c|m|d] es IH]; cbn [emitted app]; [done | | done | done].
  by rewrite IH.
Qed.

(** One iteration emits the text it read exactly when the text differs from
    [last_clipboard_content], and then stores it. *)
Lemma poll_text self c :
  poll self (PasteText c)
  = if bool_decide (last_clipboard_content self = Some c)
    then (self, [Nap (1 # 2)])
    else (mkClipboardMonitor (Some c), [Emit c; Nap (1 # 2)]).
Proof.
  unfold poll. repeat case_bool_decide; congruence.
Qed.

(** The change events of a run are the changes of the sequence of
    successful reads; failed reads emit nothing and keep the baseline. *)
Lemma monitor_clipboard_changes self reads :
  emitted (snd (_monitor_clipboard self reads))
  = changes (last_clipboard_content self) (texts reads).
Proof.
  revert self. induction reads as [|[c|m] reads IH]; intros self; [done | |].
  - cbn [_monitor_clipboard texts changes]. rewrite poll_text.
    case_bool_decide as Hc.
    + specialize (IH self).
      destruct (_monitor_clipboard self reads) as [self2 es2].
      cbn [snd emitted app] in *. done.
    + specialize (IH (mkClipboardMonitor (Some c))).
      destruct (_monitor_clipboard _ reads) as [self2 es2].
      cbn [snd emitted app last_clipboard_content] in *. by rewrite IH.
  - cbn [_monitor_clipboard texts poll]. specialize (IH self).
    destruct (_monitor_clipboard self reads) as [self2 es2].
    cbn [snd emitted app] in *. done.
Qed.

(** C3 (counterexample). The first successful read after startup is emitted
    as a change. *)
Lemma monitor_first_read_is_emitted :
  emitted (snd (_monitor_clipboard ClipboardMonitor_init [PasteText "hello"]))
  = ["hello"].
Proof. reflexivity. Qed.

(** C3 (amended). A read whose text equals the previous sample emits no
    change event, and over a whole run the events are exactly the changes of
    the successful reads; the first successful read after startup is always
    emitted, because the baseline starts as [None], which differs from every
    text. *)
Theorem monitor_emits_changes (self : ClipboardMonitor) (reads : list paste)
    (c : string) :
  poll (mkClipboardMonitor (Some c)) (PasteText c)
  = (mkClipboardMonitor (Some c), [Nap (1 # 2)])
  ∧ emitted (snd (_monitor_clipboard self reads))
    = changes (last_clipboard_content self) (texts reads)
  ∧ emitted (snd (_monitor_clipboard ClipboardMonitor_init (PasteText c :: reads)))
    = c :: changes (Some c) (texts reads).
Proof.
  split; [| split].
  - rewrite poll_text. by rewrite bool_decide_eq_true_2.
  - apply monitor_clipboard_changes.
  - rewrite monitor_clipboard_changes. cbn [texts changes ClipboardMonitor_init
      last_clipboard_content]. by rewrite bool_decide_eq_false_2.
Qed.

(** Any number of unchanged polls and failed reads between two changes adds
    no event. *)
Example monitor_run :
  emitted (snd (_monitor_clipboard ClipboardMonitor_init
    [PasteText "a"; PasteText "a"; PasteFails "busy"; PasteText "a";
     PasteText "b"; PasteText "b"; PasteText "a"]))
  = ["a"; "b"; "a"].
Proof. reflexivity. Qed.

(* ================================================================== *)
(** * Properties of URL validation *)
(* ================================================================== *)

(** In the namespace of the module, [check_domain_conditions] raises
    [NameError] at its second statement, whatever its arguments are. *)
Lemma check_domain_conditions_NameError domain config :
  check_domain_conditions module_globals domain config
  = inl (Py.NameError "result").
Proof.
  unfold check_domain_conditions, load_global.
  by rewrite module_globals_result.
Qed.

Lemma truthy_true s : Py.truthy s = true ↔ s ≠ "".
Proof. destruct s; naive_solver. Qed.

(** C1 (as the code behaves). For a URL that parses with a scheme and a
    network location, whatever the scheme is, [is_valid_and_ready_url] does
    not return: [check_domain_conditions] reads the name [result], which is
    a local variable of its caller and no global name, and [NameError] is
    raised. *)
Theorem is_valid_and_ready_url_NameError `{UrlLib} (config : Config)
    (url : string) (r : ParseResult) :
  urlparse (unquote url) = inr r →
  scheme r ≠ "" →
  netloc r ≠ "" →
  is_valid_and_ready_url module_globals config url
  = inl (Py.NameError "result").
Proof.
  intros Hparse Hs Hn. unfold is_valid_and_ready_url.
  rewrite Hparse. cbn [Py.bind].
  apply truthy_true in Hs, Hn. rewrite Hs, Hn. cbn [andb].
  apply check_domain_conditions_NameError.
Qed.

(** The scenario of the protocol check: ["ftp://example.com"] under
    [validation_scenario] is not rejected, the call raises. *)
Lemma is_valid_and_ready_url_NameError_witness :
  is_valid_and_ready_url (H := Lib.cpython) module_globals validation_scenario
    "ftp://example.com"
  = inl (Py.NameError "result").
Proof.
  apply (is_valid_and_ready_url_NameError (H := Lib.cpython) validation_scenario
           "ftp://example.com" (mkParseResult "ftp" "example.com" ""));
    [reflexivity | discriminate | discriminate].
Defined.

(** The accepting scenario raises in the same way. *)
Example is_valid_and_ready_url_https :
  is_valid_and_ready_url (H := Lib.cpython) module_globals validation_scenario
    "https://sub.example.com/path"
  = inl (Py.NameError "result").
Proof. by vm_compute. Qed.

(** C5 (counterexample). A string without scheme and host on which the
    parser itself raises: ["//["] has an unmatched bracket where the host
    would be, [urlparse] raises [ValueError], nothing catches it, and
    [is_valid_and_ready_url] raises it in place of returning [False]. *)
Lemma is_valid_and_ready_url_raises_ValueError :
  is_valid_and_ready_url (H := Lib.cpython) module_globals default_config "//["
  = inl (Py.ValueError "Invalid IPv6 URL").
Proof. reflexivity. Qed.

(** C5 (amended). A string whose parse returns and yields an empty scheme
    or an empty network location is rejected: [is_valid_and_ready_url]
    returns [False] and raises nothing, in every namespace and under every
    configuration. *)
Theorem is_valid_and_ready_url_rejects_unparsed `{UrlLib} (g : namespace)
    (config : Config) (url : string) (r : ParseResult) :
  urlparse (unquote url) = inr r →
  scheme r = "" ∨ netloc r = "" →
  is_valid_and_ready_url g config url = inr false.
Proof.
  intros Hparse Hmissing. unfold is_valid_and_ready_url.
  rewrite Hparse. cbn [Py.bind].
  destruct Hmissing as [-> | ->]; cbn [Py.truthy andb]; [done |].
  by rewrite andb_false_r.
Qed.

(** The empty string is rejected. *)
Lemma is_valid_and_ready_url_rejects_unparsed_witness :
  is_valid_and_ready_url (H := Lib.cpython) module_globals default_config ""
  = inr false.
Proof.
  apply (is_valid_and_ready_url_rejects_unparsed (H := Lib.cpython)
           module_globals default_config "" (mkParseResult "" "" ""));
    [reflexivity | left; reflexivity].
Defined.

(** Text without a scheme, and a scheme without a network location. *)
Example is_valid_and_ready_url_rejects :
  is_valid_and_ready_url (H := Lib.cpython) module_globals default_config
    "www.example.com/page" = inr false
  ∧ is_valid_and_ready_url (H := Lib.cpython) module_globals default_config
      "mailto:someone@example.com" = inr false
  ∧ is_valid_and_ready_url (H := Lib.cpython) module_globals default_config
      "//example.com/page" = inr false.
Proof. repeat split; by vm_compute. Qed.

(** The dictionary lookup of [check_domain_conditions] as a case
    distinction on [condition_type]. *)
Lemma condition_test_cases (config : Config) (domain : string) :
  condition_test config domain
  = (let value := default "" (condition_value config) in
     match condition_type config with
     | Some type =>
         if String.eqb type "contains" then Py.contains value domain
         else if String.eqb type "startswith" then Py.startswith domain value
         else if String.eqb type "endswith" then Py.endswith domain value
         else false
     | None => false
     end).
Proof.
  unfold condition_test. cbv zeta.
  destruct (condition_type config) as [type|]; [| done].
  cbn [mbind option_bind].
  destruct (String.eqb_spec type "contains") as [->|H1].
  { by rewrite lookup_insert_eq. }
  destruct (String.eqb_spec type "startswith") as [->|H2].
  { by rewrite lookup_insert_ne, lookup_insert_eq. }
  destruct (String.eqb_spec type "endswith") as [->|H3].
  { by rewrite !lookup_insert_ne, lookup_singleton_eq. }
  by rewrite !lookup_insert_ne, lookup_singleton_ne.
Qed.

(** What the three tests mean, for any configuration: the value occurs in
    the label, the label begins with the value, the label ends with the
    value. *)
Lemma condition_test_accepts (config : Config) (domain : string) :
  (condition_type config = Some "contains" →
   condition_test config domain = true
   ↔ ∃ h t, domain = h +:+ default "" (condition_value config) +:+ t)
  ∧ (condition_type config = Some "startswith" →
     condition_test config domain = true
     ↔ ∃ t, domain = default "" (condition_value config) +:+ t)
  ∧ (condition_type config = Some "endswith" →
     condition_test config domain = true
     ↔ ∃ h, domain = h +:+ default "" (condition_value config)).
Proof.
  rewrite condition_test_cases. cbv zeta.
  split; [| split]; intros ->; cbn.
  - apply contains_spec.
  - apply startswith_spec.
  - apply endswith_spec.
Qed.

Lemma condition_test_unknown (config : Config) (domain : string) :
  condition_type config
    ∉ [Some "contains"; Some "startswith"; Some "endswith"] →
  condition_test config domain = false.
Proof.
  intros Hnot. rewrite condition_test_cases. cbv zeta.
  destruct (condition_type config) as [type|]; [| done].
  destruct (String.eqb_spec type "contains") as [->|_].
  { exfalso. apply Hnot. set_solver. }
  destruct (String.eqb_spec type "startswith") as [->|_].
  { exfalso. apply Hnot. set_solver. }
  destruct (String.eqb_spec type "endswith") as [->|_].
  { exfalso. apply Hnot. set_solver. }
  done.
Qed.

(** C8. The condition test is decided by the test that [condition_type]
    names, applied to the domain label and [condition_value] (the empty
    string when absent): with ["contains"] it accepts exactly the labels in
    which the value occurs, with ["startswith"] exactly the labels that
    begin with the value, with ["endswith"] exactly the labels that end
    with it; for every other [condition_type], and when the key is absent,
    the test rejects. The tests compare characters, so they are
    case-sensitive. *)
Theorem condition_test_dispatch (config : Config) (domain : string) :
  condition_test config domain
  = (let value := default "" (condition_value config) in
     match condition_type config with
     | Some type =>
         if String.eqb type "contains" then Py.contains value domain
         else if String.eqb type "startswith" then Py.startswith domain value
         else if String.eqb type "endswith" then Py.endswith domain value
         else false
     | None => false
     end)
  ∧ condition_test (condition_only "contains" "example") "Example" = false
  ∧ condition_test (condition_only "startswith" "example") "Example" = false
  ∧ condition_test (condition_only "endswith" "example") "myExample" = false
  ∧ condition_test (condition_only "Contains" "example") "example" = false
  ∧ (condition_type config = Some "contains" →
     condition_test config domain = true
     ↔ ∃ h t, domain = h +:+ default "" (condition_value config) +:+ t)
  ∧ (condition_type config = Some "startswith" →
     condition_test config domain = true
     ↔ ∃ t, domain = default "" (condition_value config) +:+ t)
  ∧ (condition_type config = Some "endswith" →
     condition_test config domain = true
     ↔ ∃ h, domain = h +:+ default "" (condition_value config))
  ∧ (condition_type config
       ∉ [Some "contains"; Some "startswith"; Some "endswith"] →
     condition_test config domain = false)
  ∧ condition_test (condition_only "contains" "example") "myexamples" = true
  ∧ condition_test (condition_only "startswith" "example") "examples" = true
  ∧ condition_test (condition_only "endswith" "example") "myexample" = true
  ∧ condition_test (condition_only "startswith" "example") "myexample" = false
  ∧ condition_test (condition_only "endswith" "example") "examples" = false
  ∧ condition_test (condition_only "contains" "example") "exampl" = false.
Proof.
  split; [apply condition_test_cases |].
  do 4 (split; [by vm_compute |]).
  destruct (condition_test_accepts config domain) as (Hc & Hs & He).
  do 3 (split; [done |]).
  split; [apply condition_test_unknown |].
  repeat split; by vm_compute.
Qed.

(** The three tests in words: the value occurs in the label, the label
    begins with the value, the label ends with the value. *)
Lemma condition_test_meaning (value domain : string) :
  (condition_test (condition_only "contains" value) domain = true
   ↔ ∃ h t, domain = h +:+ value +:+ t)
  ∧ (condition_test (condition_only "startswith" value) domain = true
     ↔ ∃ t, domain = value +:+ t)
  ∧ (condition_test (condition_only "endswith" value) domain = true
     ↔ ∃ h, domain = h +:+ value).
Proof.
  rewrite !condition_test_cases. cbn.
  split; [apply contains_spec | split; [apply startswith_spec | apply endswith_spec]].
Qed.

(* ================================================================== *)
(** * Properties of URL rewriting *)
(* ================================================================== *)

(** What [transform] computes when the three rewriting keys are present. *)
Lemma transform_rewrite_rules (old_domain new_domain sfx url : string) :
  transform (rewrite_rules old_domain new_domain sfx) url
  = inr (let replaced := Py.replace url old_domain new_domain in
         if Py.truthy sfx && negb (Py.endswith replaced sfx)
         then replaced +:+ sfx
         else replaced).
Proof. done. Qed.

(** Appending is guarded: a second pass over a URL that the suffix rule has
    treated appends nothing. *)
Lemma suffix_rule_stable (sfx url : string) :
  let url' := if Py.truthy sfx && negb (Py.endswith url sfx)
              then url +:+ sfx else url in
  Py.truthy sfx && negb (Py.endswith url' sfx) = false.
Proof.
  cbv zeta.
  destruct (Py.truthy sfx && negb (Py.endswith url sfx)) eqn:Hguard; [| done].
  apply andb_true_iff in Hguard as [-> _].
  by rewrite endswith_app.
Qed.

(** C7. Under [{enable_domain_replacement: true, replace_domain: {old:
    "old.com", new: "new.com"}, suffix: "/suffix"}] the URL
    ["https://old.com/page"] becomes ["https://new.com/page/suffix"]; in
    general the result is the URL with every occurrence of [old] replaced
    by [new] over the whole string, followed by the suffix when the suffix
    is not empty and the replaced URL does not already end with it. *)
Theorem transform_scenario :
  transform (rewrite_rules "old.com" "new.com" "/suffix") "https://old.com/page"
  = inr "https://new.com/page/suffix"
  ∧ (∀ old_domain new_domain sfx url : string,
       transform (rewrite_rules old_domain new_domain sfx) url
       = inr (let replaced := Py.replace url old_domain new_domain in
              if Py.truthy sfx && negb (Py.endswith replaced sfx)
              then replaced +:+ sfx
              else replaced))
  ∧ transform (rewrite_rules "old.com" "new.com" "/suffix")
      "https://old.com/?next=old.com/suffix"
    = inr "https://new.com/?next=new.com/suffix"
  ∧ modify_url default_config "https://old.com/page"
    = inr ("https://new.com/page/suffix",
           ["Modified URL: https://new.com/page/suffix"]).
Proof.
  split; [by vm_compute |].
  split; [apply transform_rewrite_rules |].
  split; by vm_compute.
Qed.

(** C4 (counterexample). When [new] contains [old], a second pass replaces
    again. *)
Lemma transform_not_idempotent :
  transform (rewrite_rules "example.com" "www.example.com" "/suffix")
    "https://example.com/page"
  = inr "https://www.example.com/page/suffix"
  ∧ transform (rewrite_rules "example.com" "www.example.com" "/suffix")
      "https://www.example.com/page/suffix"
    = inr "https://www.www.example.com/page/suffix".
Proof. split; by vm_compute. Qed.

(** C4 (amended). [transform] applied to its own output returns that
    output whenever domain replacement is disabled, or [old] does not occur
    in the output. *)
Theorem transform_idempotent_once_old_absent (config : Config) (u t : string) :
  transform config u = inr t →
  (default false (enable_domain_replacement config) = false
   ∨ ∃ rd, replace_domain config = Some rd
           ∧ Py.contains (default "" (old rd)) t = false) →
  transform config t = inr t.
Proof.
  unfold transform, modify_url. intros Hu Habsent.
  assert (∀ url1,
    t = (if Py.truthy (default "" (suffix config))
            && negb (Py.endswith url1 (default "" (suffix config)))
         then url1 +:+ default "" (suffix config) else url1) →
    (if Py.truthy (default "" (suffix config))
        && negb (Py.endswith t (default "" (suffix config)))
     then t +:+ default "" (suffix config) else t) = t) as Hstable.
  { intros url1 ->. by rewrite suffix_rule_stable. }
  destruct (default false (enable_domain_replacement config)) eqn:Hen.
  - destruct Habsent as [? | (rd & Hrd & Hold)]; [done |].
    rewrite Hrd in *. cbn [Py.bind Py.ret fst] in *.
    rewrite (replace_absent t) by done.
    injection Hu as Hu. f_equal. eapply Hstable. by rewrite Hu.
  - cbn [Py.bind Py.ret fst] in *.
    injection Hu as Hu. f_equal. eapply Hstable. by rewrite Hu.
Qed.

(** The default configuration on the scenario URL: the output no longer
    contains ["old.com"], and a second pass leaves it as it is. *)
Lemma transform_idempotent_once_old_absent_witness :
  transform default_config "https://new.com/page/suffix"
  = inr "https://new.com/page/suffix".
Proof.
  apply (transform_idempotent_once_old_absent default_config
           "https://old.com/page" "https://new.com/page/suffix");
    [reflexivity |].
  right. exists (mkReplaceDomain (Some "old.com") (Some "new.com")).
  split; reflexivity.
Defined.

(** Without domain replacement, [transform] is idempotent on every URL. *)
Lemma transform_idempotent_without_replacement (config : Config) (u t : string) :
  default false (enable_domain_replacement config) = false →
  transform config u = inr t →
  transform config t = inr t.
Proof.
  unfold transform, modify_url. intros -> Hu.
  cbn [Py.bind Py.ret fst] in *. injection Hu as <-.
  f_equal. by rewrite suffix_rule_stable.
Qed.

(* ================================================================== *)
(** * Properties of percent-decoding *)
(* ================================================================== *)

(** A string without ['%'] is decoded to itself. *)
Lemma unquote_without_percent (s : string) :
  Py.contains "%" s = false → Lib.unquote s = s.
Proof.
  induction s as [|c s IH]; intros Hc; [done |].
  pose proof (contains_no_prefix _ _ Hc) as Hp.
  rewrite prefix_cons, prefix_nil, andb_true_r in Hp.
  apply bool_decide_eq_false in Hp.
  cbn [Lib.unquote].
  destruct (Ascii.eqb_spec c "%") as [->|_]; [done |].
  f_equal. apply IH. by eapply contains_tail.
Qed.

(** C6 (counterexample). Decoding ["%2541"] gives ["%41"], and decoding
    that gives ["A"]. *)
Lemma unquote_not_idempotent :
  Lib.unquote "%2541" = "%41"
  ∧ Lib.unquote (Lib.unquote "%2541") = "A".
Proof. split; reflexivity. Qed.

(** Where no escape starts, decoding copies one character. *)
Lemma unquote_plain c s :
  starts_with_escape (String c s) = false →
  Lib.unquote (String c s) = String c (Lib.unquote s).
Proof.
  cbn [Lib.unquote starts_with_escape].
  destruct (Ascii.eqb c "%"); [| done].
  destruct s as [|h [|l s'']]; [done | done |].
  by destruct (Lib.hex_digit h), (Lib.hex_digit l).
Qed.

(** Where an escape starts, decoding turns its three characters into one. *)
Lemma unquote_escape s :
  starts_with_escape s = true →
  ∃ c h l x s'', s = String c (String h (String l s''))
                 ∧ Lib.unquote s = String x (Lib.unquote s'').
Proof.
  destruct s as [|c [|h [|l s'']]]; [done | done | done |].
  cbn [Lib.unquote starts_with_escape].
  destruct (Ascii.eqb c "%"); [| done].
  destruct (Lib.hex_digit h) as [a|], (Lib.hex_digit l) as [b|]; try done.
  intros _. by eexists c, h, l, _, s''.
Qed.

(** Decoding never makes a string longer. *)
Lemma unquote_length_le n :
  ∀ s, String.length s ≤ n →
       String.length (Lib.unquote s) ≤ String.length s.
Proof.
  induction n as [|n IH]; intros s Hn.
  - destruct s; [done | cbn in Hn; lia].
  - destruct s as [|c s']; [done |].
    destruct (starts_with_escape (String c s')) eqn:Hesc.
    + apply unquote_escape in Hesc as (c' & h & l & x & s'' & Hs & ->).
      injection Hs as -> ->. cbn [String.length] in *.
      specialize (IH s''). lia.
    + rewrite unquote_plain by done. cbn [String.length] in *.
      specialize (IH s'). lia.
Qed.

(** Decoding a string that holds an escape makes it shorter. *)
Lemma unquote_escape_shrinks s :
  has_escape s = true →
  String.length (Lib.unquote s) < String.length s.
Proof.
  induction s as [|c s' IH]; [done |].
  cbn [has_escape]. destruct (starts_with_escape (String c s')) eqn:Hesc.
  - intros _.
    apply unquote_escape in Hesc as (c' & h & l & x & s'' & Hs & ->).
    injection Hs as -> ->. cbn [String.length].
    pose proof (unquote_length_le _ s'' (le_n _)). lia.
  - cbn [orb]. intros Hrest. rewrite unquote_plain by done.
    cbn [String.length]. specialize (IH Hrest). lia.
Qed.

(** Decoding leaves a string as it is exactly when no escape occurs in
    it. *)
Lemma unquote_fixed_iff s :
  Lib.unquote s = s ↔ has_escape s = false.
Proof.
  split.
  - intros Hfixed. destruct (has_escape s) eqn:Hesc; [| done].
    apply unquote_escape_shrinks in Hesc. rewrite Hfixed in Hesc. lia.
  - induction s as [|c s' IH]; [done |].
    cbn [has_escape]. intros [Hhead Hrest]%orb_false_iff.
    rewrite unquote_plain by done. f_equal. by apply IH.
Qed.

(** C6 (amended). Decoding a decoded string is a no-op exactly when the
    decoded string holds no ['%'] followed by two hexadecimal digits. *)
Theorem unquote_idempotent_iff_no_escape (s : string) :
  Lib.unquote (Lib.unquote s) = Lib.unquote s
  ↔ has_escape (Lib.unquote s) = false.
Proof. apply unquote_fixed_iff. Qed.

(** A decoding that holds a ['%'] and is stable all the same, and one that
    is not. *)
Example unquote_percent_sign :
  Lib.unquote "50%25 off" = "50% off"
  ∧ Lib.unquote "50% off" = "50% off"
  ∧ has_escape "50% off" = false
  ∧ has_escape "%41" = true.
Proof. repeat split; reflexivity. Qed.

(* ================================================================== *)
(** * Properties of the configuration *)
(* ================================================================== *)

(** C9 (counterexample). A configuration that gives an empty list leaves
    validation with no allowed protocol. *)
Lemma allowed_protocols_can_be_empty :
  get_allowed_protocols no_protocols = [].
Proof. reflexivity. Qed.

(** C9 (amended). When the configuration omits [allowed_protocols],
    validation falls back to [["http", "https"]]; a list that is present is
    used as it is, so the list in use is empty exactly when the
    configuration gives the empty list. Both configurations that the
    program writes itself, the default file and the file saved by the
    settings window, lead to [["http", "https"]]. *)
Theorem allowed_protocols_fallback (config : Config) (self : SettingsWindow)
    (previous : option Config) :
  get_allowed_protocols config
  = match allowed_protocols config with
    | None => ["http"; "https"]
    | Some protocols => protocols
    end
  ∧ (get_allowed_protocols config = [] ↔ allowed_protocols config = Some [])
  ∧ load_configuration (mkDisk None true)
    = inr (default_config, mkDisk (Some default_config) true)
  ∧ get_allowed_protocols default_config = ["http"; "https"]
  ∧ load_configuration (fst (save_configuration self (mkDisk previous true)))
    = inr (new_config self, mkDisk (Some (new_config self)) true)
  ∧ get_allowed_protocols (new_config self) = ["http"; "https"].
Proof.
  unfold get_allowed_protocols.
  split; [by destruct (allowed_protocols config) |].
  split; [| done].
  destruct (allowed_protocols config) as [l|]; cbn [default]; naive_solver.
Qed.

(** C10. The configuration that [save_configuration] writes has the keys
    [hotkey], [double_press_delay], [condition_type], [condition_value],
    [enable_domain_replacement], [replace_domain] and [suffix], and no
    others: [allowed_protocols] is absent from it, whatever the previous
    content of the file was, and stays absent in the configuration that is
    loaded afterwards. *)
Theorem save_configuration_drops_allowed_protocols (self : SettingsWindow)
    (previous : option Config) :
  keys (new_config self)
  = ["hotkey"; "double_press_delay"; "condition_type"; "condition_value";
     "enable_domain_replacement"; "replace_domain"; "suffix"]
  ∧ allowed_protocols (new_config self) = None
  ∧ save_configuration self (mkDisk previous true)
    = (mkDisk (Some (new_config self)) true,
       [Information "Settings saved successfully!";
        TraceSource "Configuration saved successfully.";
        Close])
  ∧ (∀ d, config_json (fst (save_configuration self d)) = config_json d
          ∨ config_json (fst (save_configuration self d))
            = Some (new_config self))
  ∧ load_configuration (fst (save_configuration self (mkDisk previous true)))
    = inr (new_config self, mkDisk (Some (new_config self)) true).
Proof.
  repeat split; try done.
  intros [file [|]]; [by right | by left].
Qed.

(** A file with [allowed_protocols] loses the key when the settings are
    saved. *)
Example save_configuration_example :
  let self := mkSettingsWindow "ctrl" 3 "contains" "example" true
                "old.com" "new.com" "/suffix" in
  let d := mkDisk (Some default_config) true in
  (allowed_protocols <$> config_json d) = Some (Some ["http"; "https"])
  ∧ (allowed_protocols <$> config_json (fst (save_configuration self d)))
    = Some None.
Proof. by vm_compute. Qed.

(* ================================================================== *)
(** * Further properties of [retry_with_backoff] *)
(* ================================================================== *)

Lemma sleeps_app es es' : sleeps (es ++ es') = sleeps es ++ sleeps es'.
Proof.
  induction es as [|[|a e|d] es IH]; cbn [sleeps app]; [done | done | done |].
  by rewrite IH.
Qed.

Lemma logged_app es es' : logged (es ++ es') = logged es ++ logged es'.
Proof.
  induction es as [|[|a e|d] es IH]; cbn [logged app]; [done | done | | done].
  by rewrite IH.
Qed.

Section RetryBounds.
Context {W R : Type}.
Variable g : namespace.
Variable uniform : Z -> Q.
Variable p : RetryParams.
Variable func : W -> Py.result R * W.

(** A delay that the handler computes is capped by [max_delay]. *)
Lemma next_delay_capped retries delay d :
  next_delay g uniform p retries delay = inr d → (d <= max_delay p)%Q.
Proof.
  unfold next_delay. destruct (jitter p).
  - destruct (random_uniform g (uniform retries)) as [e|u]; cbn; [done |].
    intros [= <-]. apply Q.le_min_l.
  - intros [= <-]. apply Q.le_min_l.
Qed.

(** From the attempt with index [retries] on, the loop executes the
    function at most [max_retries - retries] times, sleeps at most
    [max_delay] each time, and numbers its log entries from [retries + 1]. *)
Lemma wrapper_loop_bounds fuel :
  ∀ retries delay w o w' es,
    wrapper_loop g uniform p func fuel retries delay w = Some (o, w', es) →
    (Z.of_nat (calls es) ≤ Z.max 0 (max_retries p - retries))%Z
    ∧ Forall (λ d, (d <= max_delay p)%Q) (sleeps es)
    ∧ logged es
      = map (λ i, (retries + 1 + Z.of_nat i)%Z) (seq 0 (length (logged es))).
Proof.
  induction fuel as [|fuel IH]; intros retries delay w o w' es; [done |].
  cbn [wrapper_loop].
  destruct (Z.ltb_spec retries (max_retries p)) as [Hlt|Hge].
  2:{ intros [= <- <- <-]. cbn. split; [lia | done]. }
  destruct (func w) as [[e|r] w1].
  2:{ intros [= <- <- <-]. cbn. split; [lia | done]. }
  destruct (Z.eqb_spec retries (max_retries p - 1)) as [Hlast|Hmore].
  { intros [= <- <- <-]. cbn. split; [lia |]. split; [done |].
    f_equal. lia. }
  destruct (next_delay g uniform p retries delay) as [e'|d] eqn:Hd.
  { intros [= <- <- <-]. cbn. split; [lia |]. split; [done |].
    f_equal. lia. }
  destruct (sleep d) as [e'|[]].
  { intros [= <- <- <-]. cbn. split; [lia |]. split; [done |].
    f_equal. lia. }
  destruct (wrapper_loop g uniform p func fuel (retries + 1) d w1)
    as [[[o1 w2] es1]|] eqn:Hrun; [| done].
  cbn [later]. intros [= <- <- <-].
  destruct (IH _ _ _ _ _ _ Hrun) as (Hcalls & Hsleeps & Hlog).
  split; [| split].
  - change (Call :: LogRetry (retries + 1) e :: Sleep d :: es1)
      with ([Call; LogRetry (retries + 1) e; Sleep d] ++ es1).
    rewrite calls_app. cbn. lia.
  - cbn [app sleeps]. constructor; [| done].
    by eapply next_delay_capped.
  - cbn [app logged length seq map]. f_equal; [lia |].
    rewrite Hlog at 1. rewrite <- seq_shift, map_map.
    apply map_ext. intros i. lia.
Qed.

(** X1. For a decorated function each call of which ends (it returns or
    raises), whatever it returns or raises and whatever the namespace
    binds, the wrapper ends, and it has executed the function at most
    [max_retries] times (never, when [max_retries] is not positive). *)
Theorem retry_calls_bounded (w : W) :
  ∃ o w' es,
    retry_with_backoff g uniform p func w = Some (o, w', es)
    ∧ calls es ≤ Z.to_nat (max_retries p).
Proof.
  destruct (wrapper_total g uniform p func w) as [[[o w'] es] Hrun].
  exists o, w', es. split; [done |].
  destruct (wrapper_loop_bounds _ _ _ _ _ _ _ Hrun) as (Hcalls & _). lia.
Qed.

(** X2. Every sleep of the wrapper lasts at most [max_delay], and the log
    entries of a run are numbered 1, 2, 3, ... in order. *)
Theorem retry_sleeps_capped (w : W) :
  ∃ o w' es,
    retry_with_backoff g uniform p func w = Some (o, w', es)
    ∧ Forall (λ d, (d <= max_delay p)%Q) (sleeps es)
    ∧ logged es = map (λ i, (1 + Z.of_nat i)%Z) (seq 0 (length (logged es))).
Proof.
  destruct (wrapper_total g uniform p func w) as [[[o w'] es] Hrun].
  exists o, w', es. split; [done |].
  destruct (wrapper_loop_bounds _ _ _ _ _ _ _ Hrun) as (_ & Hsleeps & Hlog).
  done.
Qed.

(** X3. With [max_retries] zero or negative the function is never called:
    the loop is skipped and the wrapper returns [None], neither the result
    nor an error of the function. *)
Theorem retry_without_attempts (w : W) :
  (max_retries p ≤ 0)%Z →
  retry_with_backoff g uniform p func w = Some (ReturnedNone, w, []).
Proof.
  intros Hmax. unfold retry_with_backoff, wrapper. cbn [wrapper_loop].
  by destruct (Z.ltb_spec 0 (max_retries p)) as [?|_]; [lia |].
Qed.

Lemma wrapper_first_attempt (w w' : W) (r : R) :
  (0 < max_retries p)%Z →
  func w = (inr r, w') →
  wrapper g uniform p func w = Some (Returned r, w', [Call]).
Proof.
  intros Hmax Hfunc. unfold wrapper. cbn [wrapper_loop].
  destruct (Z.ltb_spec 0 (max_retries p)) as [_|?]; [| lia].
  by rewrite Hfunc.
Qed.

(** X4. A function that succeeds at its first attempt is executed once and
    its result is returned at once, with no log entry and no sleep; this
    holds with jitter as well, in every namespace. *)
Theorem retry_first_attempt_succeeds (w w' : W) (r : R) :
  (0 < max_retries p)%Z →
  func w = (inr r, w') →
  retry_with_backoff g uniform p func w = Some (Returned r, w', [Call]).
Proof. apply wrapper_first_attempt. Qed.

(** X5. With [max_retries = 1] a failure is final: the error of the
    function itself is raised after one execution and one log entry, with
    no sleep; the jitter computation is not reached. *)
Theorem retry_single_attempt_fails (w w' : W) (e : Py.exn) :
  max_retries p = 1%Z →
  func w = (inl e, w') →
  retry_with_backoff g uniform p func w
  = Some (Raised e, w', [Call; LogRetry 1 e]).
Proof.
  intros Hmax Hfunc. unfold retry_with_backoff, wrapper.
  rewrite Hmax. cbn [wrapper_loop Z.to_nat Pos.to_nat Pos.iter_op].
  rewrite Hmax. cbn. by rewrite Hfunc.
Qed.

End RetryBounds.

(** The program's decorator on a function that always fails. *)
Lemma retry_without_attempts_witness :
  retry_with_backoff module_globals (λ _, 0%Q) (mkRetryParams 0 1 10 2 true)
    (always_raises (Py.Exception "boom")) 0
  = Some (ReturnedNone, 0, []).
Proof. apply retry_without_attempts. cbn. lia. Defined.

Lemma retry_first_attempt_succeeds_witness :
  retry_with_backoff module_globals (λ _, 0%Q) retry_used
    (succeeds_at 1 (Py.Exception "boom") "ok") 0
  = Some (Returned "ok", 1, [Call]).
Proof. apply retry_first_attempt_succeeds; [cbn; lia | reflexivity]. Defined.

Lemma retry_single_attempt_fails_witness :
  retry_with_backoff module_globals (λ _, 0%Q) (mkRetryParams 1 1 10 2 true)
    (always_raises (Py.Exception "boom")) 0
  = Some (Raised (Py.Exception "boom"), 1,
          [Call; LogRetry 1 (Py.Exception "boom")]).
Proof. apply retry_single_attempt_fails; reflexivity. Defined.



(* ================================================================== *)
(** * Further properties of [ClipboardMonitor] *)
(* ================================================================== *)

Lemma naps_app es es' : naps (es ++ es') = naps es + naps es'.
Proof.
  induction es as [|[c|m|d] es IH]; cbn [naps app]; [done | done | done |].
  by rewrite IH.
Qed.

Lemma traced_app es es' : traced (es ++ es') = traced es ++ traced es'.
Proof.
  induction es as [|[c|m|d] es IH]; cbn [traced app]; [done | done | | done].
  by rewrite IH.
Qed.

Lemma changes_stutter_free prev samples :
  stutter_free prev (changes prev samples) = true.
Proof.
  revert prev. induction samples as [|x samples IH]; intros prev; [done |].
  cbn [changes]. case_bool_decide as Hx; [apply IH |].
  cbn [stutter_free]. rewrite bool_decide_eq_false_2 by done. apply IH.
Qed.

(** X8. After any run of the loop, [last_clipboard_content] is the text of
    the last successful read, or its initial value when no read succeeded:
    failed reads never touch the baseline. *)
Theorem monitor_baseline (self : ClipboardMonitor) (reads : list paste) :
  last_clipboard_content (fst (_monitor_clipboard self reads))
  = from_option Some (last_clipboard_content self) (last (texts reads)).
Proof.
  revert self. induction reads as [|[c|m] reads IH]; intros self; [done | |].
  - cbn [_monitor_clipboard texts]. rewrite poll_text.
    assert (from_option Some (last_clipboard_content self)
              (last (c :: texts reads))
            = from_option Some (Some c) (last (texts reads))) as ->.
    { rewrite last_cons. by destruct (last (texts reads)). }
    case_bool_decide as Hc.
    + specialize (IH self). rewrite Hc in IH.
      destruct (_monitor_clipboard self reads) as [self2 es2]. done.
    + specialize (IH (mkClipboardMonitor (Some c))).
      destruct (_monitor_clipboard _ reads) as [self2 es2]. done.
  - cbn [_monitor_clipboard texts poll]. specialize (IH self).
    destruct (_monitor_clipboard self reads) as [self2 es2]. done.
Qed.

(** X9. No change event repeats the content of the event before it, and the
    first event of a run differs from the baseline the run started with. *)
Theorem monitor_events_never_stutter (self : ClipboardMonitor)
    (reads : list paste) :
  stutter_free (last_clipboard_content self)
    (emitted (snd (_monitor_clipboard self reads))) = true.
Proof. rewrite monitor_clipboard_changes. apply changes_stutter_free. Qed.

(** X10. The loop survives every failed read: each iteration, successful or
    not, ends with exactly one sleep, and each failed read leaves exactly
    one trace, ["Clipboard access failed: "] followed by the message of the
    exception, in the order of the failures. *)
Theorem monitor_sleeps_and_traces (self : ClipboardMonitor)
    (reads : list paste) :
  naps (snd (_monitor_clipboard self reads)) = length reads
  ∧ traced (snd (_monitor_clipboard self reads))
    = map (λ msg, "Clipboard access failed: " +:+ msg) (failures reads).
Proof.
  revert self. induction reads as [|[c|m] reads IH]; intros self; [done | |].
  - cbn [_monitor_clipboard failures length]. rewrite poll_text.
    case_bool_decide.
    + destruct (IH self) as [IH1 IH2].
      destruct (_monitor_clipboard self reads) as [self2 es2].
      cbn [snd] in *. rewrite naps_app, traced_app, IH1, IH2. done.
    + destruct (IH (mkClipboardMonitor (Some c))) as [IH1 IH2].
      destruct (_monitor_clipboard _ reads) as [self2 es2].
      cbn [snd] in *. rewrite naps_app, traced_app, IH1, IH2. done.
  - cbn [_monitor_clipboard failures length poll map].
    destruct (IH self) as [IH1 IH2].
    destruct (_monitor_clipboard self reads) as [self2 es2].
    cbn [snd] in *. rewrite naps_app, traced_app, IH1, IH2. done.
Qed.

(* ================================================================== *)
(** * Further properties of validation and dispatch *)
(* ================================================================== *)

Lemma validation_outcomes `{UrlLib} (config : Config) (url : string) :
  is_valid_and_ready_url module_globals config url = inr false
  ∨ ∃ e, is_valid_and_ready_url module_globals config url = inl e.
Proof.
  unfold is_valid_and_ready_url.
  destruct (urlparse (unquote url)) as [e|r]; cbn [Py.bind]; [by right; eexists |].
  destruct (Py.truthy (scheme r) && Py.truthy (netloc r)); [| by left].
  right. rewrite check_domain_conditions_NameError. by eexists.
Qed.

(** X11. As the module stands, validation accepts nothing: for every
    input, configuration and implementation of the library functions,
    [is_valid_and_ready_url] returns [False] or raises, never [True]. *)
Theorem is_valid_and_ready_url_never_accepts `{UrlLib} (config : Config)
    (url : string) :
  is_valid_and_ready_url module_globals config url = inr false
  ∨ ∃ e, is_valid_and_ready_url module_globals config url = inl e.
Proof. apply validation_outcomes. Qed.

(** What [open_url] does when [modify_url] returns. *)
Lemma open_url_returns config url t :
  transform config url = inr t →
  open_url config url
  = ([TraceLine ("Modified URL: " +:+ t); TraceLine ("Opening URL: " +:+ t);
      StartURLThread t], inr tt).
Proof.
  unfold transform, open_url, modify_url.
  destruct (if default false (enable_domain_replacement config) then _ else _)
    as [e|url1]; cbn [Py.bind Py.ret fst]; [done |].
  by intros [= <-].
Qed.

Lemma open_url_raises config url e :
  transform config url = inl e → open_url config url = ([], inl e).
Proof.
  unfold transform, open_url, modify_url.
  destruct (if default false (enable_domain_replacement config) then _ else _)
    as [e'|url1]; cbn [Py.bind Py.ret fst]; [| done].
  by intros [= <-].
Qed.

(** X12. [open_url] hands the [URLThread] exactly the URL that [modify_url]
    returns, after tracing it; when [modify_url] raises, nothing is traced
    and no thread is started. *)
Theorem open_url_opens_the_modified_url (config : Config) (url : string) :
  match transform config url with
  | inr t =>
      open_url config url
      = ([TraceLine ("Modified URL: " +:+ t);
          TraceLine ("Opening URL: " +:+ t);
          StartURLThread t], inr tt)
  | inl e => open_url config url = ([], inl e)
  end.
Proof.
  destruct (transform config url) as [e|t] eqn:Ht.
  - by apply open_url_raises.
  - by apply open_url_returns.
Qed.

(** X13. As the module stands, neither handler ever starts a [URLThread]:
    a clipboard change and a hotkey press open no URL, whatever the
    clipboard holds and whatever the configuration is. *)
Theorem handlers_never_open `{UrlLib} (config : Config) (content : string)
    (first second : paste) :
  opened (fst (on_clipboard_change module_globals config content)) = []
  ∧ opened (fst (handle_hotkey module_globals config first second)) = [].
Proof.
  split.
  - unfold on_clipboard_change.
    destruct (validation_outcomes config content)
      as [-> | [e ->]]; done.
  - unfold handle_hotkey.
    destruct first as [text|msg]; [| done].
    destruct (Py.truthy text); [| done].
    destruct second as [url|msg]; [| done].
    destruct (validation_outcomes config url)
      as [-> | [e ->]]; [done |].
    by destruct e.
Qed.

(** X14. A failure of either clipboard read of [handle_hotkey] is caught:
    the handler traces ["No text found in clipboard: "] with the message
    and returns, without validating or opening anything. *)
Theorem handle_hotkey_clipboard_failure `{UrlLib} (g : namespace)
    (config : Config) (first second : paste) (msg : string) :
  first = PasteFails msg
  ∨ (∃ text, first = PasteText text ∧ text ≠ "" ∧ second = PasteFails msg) →
  handle_hotkey g config first second
  = ([TraceLine ("No text found in clipboard: " +:+ msg)], inr tt).
Proof.
  intros [-> | (text & -> & Htext & ->)]; [done |].
  unfold handle_hotkey. apply truthy_true in Htext. by rewrite Htext.
Qed.

Lemma handle_hotkey_clipboard_failure_witness :
  handle_hotkey (H := Lib.cpython) module_globals default_config
    (PasteText "https://example.com") (PasteFails "clipboard busy")
  = ([TraceLine "No text found in clipboard: clipboard busy"], inr tt).
Proof.
  apply (handle_hotkey_clipboard_failure (H := Lib.cpython)).
  right. exists "https://example.com". split; [reflexivity |].
  split; [discriminate | reflexivity].
Defined.

(** X15. [handle_hotkey] validates the second read of the clipboard: the
    first read only decides whether there is anything to handle, so two
    presses whose first reads are non-empty and whose second reads are the
    same are handled in the same way; an empty first read ends the handler
    with no effect at all. *)
Theorem handle_hotkey_uses_second_read `{UrlLib} (g : namespace)
    (config : Config) (text text' : string) (second : paste) :
  text ≠ "" →
  text' ≠ "" →
  handle_hotkey g config (PasteText text) second
  = handle_hotkey g config (PasteText text') second
  ∧ handle_hotkey g config (PasteText "") second = ([], inr tt).
Proof.
  intros Ht Ht'. apply truthy_true in Ht, Ht'.
  unfold handle_hotkey. by rewrite Ht, Ht'.
Qed.

Lemma handle_hotkey_uses_second_read_witness :
  handle_hotkey (H := Lib.cpython) module_globals default_config
    (PasteText "https://example.com") (PasteText "plain text")
  = handle_hotkey (H := Lib.cpython) module_globals default_config
      (PasteText "other") (PasteText "plain text")
  ∧ handle_hotkey (H := Lib.cpython) module_globals default_config
      (PasteText "") (PasteText "plain text") = ([], inr tt).
Proof.
  apply (handle_hotkey_uses_second_read (H := Lib.cpython));
    discriminate.
Defined.

(* ================================================================== *)
(** * Further properties of URL rewriting *)
(* ================================================================== *)

(** X16. Whenever [modify_url] returns and the configured suffix is not
    empty, the returned URL ends with the suffix, whatever the replacement
    did before. *)
Theorem transform_ends_with_suffix (config : Config) (url t sfx : string) :
  transform config url = inr t →
  suffix config = Some sfx →
  sfx ≠ "" →
  Py.endswith t sfx = true.
Proof.
  unfold transform, modify_url. intros Ht Hsfx Hne.
  rewrite Hsfx in Ht. cbn [from_option id] in Ht.
  apply truthy_true in Hne. rewrite Hne in Ht. cbn [andb] in Ht.
  destruct (if default false (enable_domain_replacement config) then _ else _)
    as [e|url1]; cbn [Py.bind Py.ret fst] in Ht; [done |].
  injection Ht as <-.
  destruct (Py.endswith url1 sfx) eqn:Hends; cbn [negb]; [done |].
  apply endswith_app.
Qed.

Lemma transform_ends_with_suffix_witness :
  Py.endswith "https://new.com/page/suffix" "/suffix" = true.
Proof.
  apply (transform_ends_with_suffix default_config "https://old.com/page"
           "https://new.com/page/suffix" "/suffix");
    [reflexivity | reflexivity | discriminate].
Defined.

(** X17. [modify_url] raises exactly when domain replacement is enabled and
    the key [replace_domain] is missing, and then it raises [KeyError] for
    that key; in every other configuration it returns a URL. The keys [old]
    and [new] inside [replace_domain], and [suffix], may be missing. *)
Theorem modify_url_raises_only_KeyError (config : Config) (url : string) :
  match modify_url config url with
  | inl e =>
      e = Py.KeyError "replace_domain"
      ∧ enable_domain_replacement config = Some true
      ∧ replace_domain config = None
  | inr _ =>
      default false (enable_domain_replacement config) = false
      ∨ is_Some (replace_domain config)
  end.
Proof.
  unfold modify_url.
  destruct (enable_domain_replacement config) as [[|]|]; cbn [default];
    [| by left | by left].
  destruct (replace_domain config) as [rd|]; cbn [Py.bind Py.ret Py.raise];
    [by right | done].
Qed.

(** X18. With domain replacement enabled and [old] empty or missing, the
    replacement matches at every position: [new] is inserted in front of
    every character of the URL and once more at its end, before the suffix
    rule applies. *)
Theorem transform_with_empty_old (config : Config) (url : string)
    (rd : ReplaceDomain) :
  enable_domain_replacement config = Some true →
  replace_domain config = Some rd →
  default "" (old rd) = "" →
  transform config url
  = inr (let replaced := Py.interleave (default "" (new rd)) url in
         let sfx := default "" (suffix config) in
         if Py.truthy sfx && negb (Py.endswith replaced sfx)
         then replaced +:+ sfx else replaced).
Proof.
  intros Hen Hrd Hold. unfold transform, modify_url.
  by rewrite Hen, Hrd, Hold.
Qed.

Lemma transform_with_empty_old_witness :
  transform (rewrite_rules "" "-" "") "abc" = inr "-a-b-c-".
Proof.
  apply (transform_with_empty_old (rewrite_rules "" "-" "") "abc"
           (mkReplaceDomain (Some "") (Some "-")));
    reflexivity.
Defined.

(* ================================================================== *)
(** * Further properties of the configuration file *)
(* ================================================================== *)

(** X19. For a file that, when it exists, can be read and holds a
    configuration: [load_configuration] fails only when there is no file
    and none can be opened for writing. When it succeeds, the configuration
    it returns is the content of the file afterwards; a file that exists is
    returned as it is and is never rewritten; a missing file is created
    with the default configuration. *)
Theorem load_configuration_cases (d : Disk) :
  match load_configuration d with
  | inl e => config_json d = None ∧ writable d = false
  | inr (config, d') =>
      config_json d' = Some config
      ∧ match config_json d with
        | Some file => config = file ∧ d' = d
        | None => config = default_config ∧ writable d = true
        end
  end.
Proof.
  destruct d as [[file|] [|]]; by cbn.
Qed.

(** X20. Loading is idempotent: after a successful load, a second load
    returns the same configuration and leaves the file as it is. *)
Theorem load_configuration_twice (d d' : Disk) (config : Config) :
  load_configuration d = inr (config, d') →
  load_configuration d' = inr (config, d').
Proof.
  destruct d as [[file|] [|]]; cbn; intros [= <- <-]; done.
Qed.

Lemma load_configuration_twice_witness :
  load_configuration (mkDisk (Some default_config) true)
  = inr (default_config, mkDisk (Some default_config) true).
Proof.
  apply (load_configuration_twice (mkDisk None true)). reflexivity.
Defined.

(** X21. [load_configuration] under its decorator, for a file that, when
    it exists, can be read and holds a configuration. An existing file is
    loaded with one call; a missing file is created and loaded with one
    call; when the file is missing and cannot be opened for writing, the
    [PermissionError] of [open] is logged once and then replaced by the
    [NameError] of the jitter computation: there is no second attempt, and
    [self.config] stays unset. *)
Theorem load_configuration_decorated_cases (uniform : Z → Q) (d : Disk)
    (config : option Config) :
  load_configuration_decorated uniform (d, config)
  = match config_json d with
    | Some file => Some (Returned tt, (d, Some file), [Call])
    | None =>
        if writable d
        then Some (Returned tt,
                   (mkDisk (Some default_config) true, Some default_config),
                   [Call])
        else Some (Raised (Py.NameError "random"), (d, config),
                   [Call;
                    LogRetry 1
                      (Py.OSError "[Errno 13] Permission denied: 'config.json'")])
    end.
Proof.
  unfold load_configuration_decorated.
  destruct d as [[file|] [|]].
  - by apply wrapper_first_attempt.
  - by apply wrapper_first_attempt.
  - by apply wrapper_first_attempt.
  - by vm_compute.
Qed.

(** X22. [save_configuration] under its decorator is executed exactly once
    and the wrapper returns: the body catches the error itself, so a failed
    save is never retried. A save whose [open] is refused leaves the file
    as it was, is traced and shown as an error with the text of the
    [PermissionError], and does not close the window. *)
Theorem save_configuration_decorated_once (uniform : Z → Q)
    (self : SettingsWindow) (d : Disk) (shown : list settings_effect) :
  save_configuration_decorated uniform self (d, shown)
  = Some (Returned tt,
          (if writable d
           then (mkDisk (Some (new_config self)) true,
                 shown ++ [Information "Settings saved successfully!";
                           TraceSource "Configuration saved successfully.";
                           Close])
           else (d,
                 shown ++ [TraceSource "Error saving configuration: [Errno 13] Permission denied: 'config.json'";
                           Critical "Failed to save settings: [Errno 13] Permission denied: 'config.json'"])),
          [Call]).
Proof.
  unfold save_configuration_decorated.
  destruct d as [file [|]]; by apply wrapper_first_attempt.
Qed.

(* ================================================================== *)
(** * Properties of [setup_hotkey] *)
(* ================================================================== *)

(** X23. When the registration of the configured hotkey is refused and the
    dialog is cancelled or left empty, [setup_hotkey] shows the warning
    once, registers nothing, leaves the configuration as it is and returns
    without an exception. *)
Theorem setup_hotkey_without_replacement (refused : string → bool)
    (config : Config) (value new_hotkey : string) (ok : bool) :
  hotkey config = Some value →
  refused (capitalize value +:+ "+c") = true →
  ok = false ∨ new_hotkey = "" →
  setup_hotkey refused config (new_hotkey, ok)
  = ([Asked; Warned], config, inr tt).
Proof.
  intros Hkey Hrefused Hanswer. unfold setup_hotkey.
  rewrite Hkey, Hrefused.
  destruct Hanswer as [-> | ->]; [done |]. by rewrite andb_false_r.
Qed.

Lemma setup_hotkey_without_replacement_witness :
  setup_hotkey (String.eqb "Ctrl+c") default_config ("", true)
  = ([Asked; Warned], default_config, inr tt).
Proof.
  apply (setup_hotkey_without_replacement (String.eqb "Ctrl+c")
           default_config "ctrl" "" true);
    [reflexivity | reflexivity | right; reflexivity].
Defined.

(** X24. On every path [setup_hotkey] registers at most one combination
    and changes no key of the configuration other than [hotkey]; when it
    returns without an exception it has registered a combination or shown
    the warning; without the key [hotkey] it raises [KeyError] before it
    asks or registers anything. *)
Theorem setup_hotkey_invariants (refused : string → bool) (config : Config)
    (answer : string * bool) :
  length (registered (setup_hotkey refused config answer).1.1) ≤ 1
  ∧ set_hotkey (setup_hotkey refused config answer).1.2 ""
    = set_hotkey config ""
  ∧ match (setup_hotkey refused config answer).2 with
    | inr _ =>
        length (registered (setup_hotkey refused config answer).1.1) = 1
        ∨ (setup_hotkey refused config answer).1 = ([Asked; Warned], config)
    | inl e =>
        registered (setup_hotkey refused config answer).1.1 = []
    end
  ∧ (hotkey config = None →
     setup_hotkey refused config answer
     = ([], config, inl (Py.KeyError "hotkey"))).
Proof.
  unfold setup_hotkey. destruct answer as [new_hotkey ok].
  destruct (hotkey config) as [value|] eqn:Hkey;
    [destruct (refused (capitalize value +:+ "+c"));
       [destruct (ok && Py.truthy new_hotkey);
          [destruct (refused (new_hotkey +:+ "+c")) |] |] |];
    cbn; repeat split; first [lia | done | by left | by right].
Qed.

(* ================================================================== *)
(** * [check_domain_conditions] in a namespace that binds [result] *)
(* ================================================================== *)

(** X25. [check_domain_conditions] decides on the global object [result],
    not on the URL under validation: in a namespace that binds [result] to
    a parse result, it rejects when the scheme of that object is not
    literally among the allowed protocols, and otherwise returns the
    outcome of the condition test on the domain label. *)
Theorem check_domain_conditions_with_result (g : namespace) (r : ParseResult)
    (domain : string) (config : Config) :
  g !! "result" = Some (PyParseResult r) →
  check_domain_conditions g domain config
  = inr (if Py.in_list (scheme r) (get_allowed_protocols config)
         then condition_test config domain
         else false).
Proof.
  intros Hg. unfold check_domain_conditions, load_global. rewrite Hg.
  cbn [Py.bind Py.ret getattr_scheme].
  by destruct (Py.in_list (scheme r) (get_allowed_protocols config)).
Qed.

Lemma check_domain_conditions_with_result_witness :
  check_domain_conditions
    (<["result" := PyParseResult (mkParseResult "ftp" "example.com" "")]>
       module_globals)
    "example" validation_scenario
  = inr false.
Proof.
  apply (check_domain_conditions_with_result _
           (mkParseResult "ftp" "example.com" "") "example" validation_scenario).
  apply lookup_insert_eq.
Defined.
